(** * Mobile cover service: chroma-key compositing and the model catalogue

    A shallow embedding of [app.py] (class [MobileCoverApp]): the compositing
    routine [_combine_images] over 8-bit BGR arrays, the upload path
    ([upload_image], [_process_image]) over an explicit file system, and the
    catalogue handlers ([add_model], [update_model], [delete_model]) over the
    [MobileModel] table. *)

From Stdlib Require Import ZArith Lia Ascii.
From stdpp Require Import gmap strings list fin_maps.

Local Open Scope Z_scope.

(** ** Exceptions and the error monad

    The Python exceptions the modelled code can raise.  [cv2_error f] is
    [cv2.error] raised by a failed assertion inside the cv2 function [f];
    [OSError path] is the error of opening [path] (a directory, a missing
    parent directory, a file that is not there). *)
Inductive exn : Type :=
  | AttributeError
  | cv2_error (func : string)
  | IntegrityError
  | OSError (path : string).

Definition raises (A : Type) : Type := exn + A.

#[global] Instance raises_ret : MRet raises := λ A x, inr x.
#[global] Instance raises_bind : MBind raises := λ A B f m,
  match m with
  | inl e => inl e
  | inr x => f x
  end.

(** ** Arrays

    A numpy [uint8] array of shape [(h, w, 3)] is a list of [h] rows of [w]
    pixels; a channel is an integer, 8-bit when it lies in [0, 255].  A mask
    is an array of shape [(h, w)]. *)
Definition Vec3b : Type := Z * Z * Z.
Abbreviation Mat3 := (list (list Vec3b)).
Abbreviation Mat1 := (list (list Z)).

Section Shape.
Context {A : Type}.

  (** [m.shape[0]] and [m.shape[1]] *)
Definition rows (m : list (list A)) : nat := length m.
Definition cols (m : list (list A)) : nat := length (default [] (head m)).

  (** [m[i][j]] *)
Definition px (m : list (list A)) (i j : nat) : option A :=
    row ← m !! i; row !! j.

  (** every row has [w] entries *)
Definition rect (w : nat) (m : list (list A)) : Prop :=
    Forall (λ row, length row = w) m.
End Shape.

Definition is_u8 (z : Z) : bool := (0 <=? z) && (z <=? 255).
Definition px_u8 (p : Vec3b) : bool :=
  let '(c0, c1, c2) := p in is_u8 c0 && is_u8 c1 && is_u8 c2.

(** What [cv2.imread] returns when it does not return [None]: a non-empty
    rectangular array of 8-bit pixels. *)
Definition valid_image (m : Mat3) : bool :=
  negb (Nat.eqb (rows m) 0) && negb (Nat.eqb (cols m) 0)
  && forallb (λ row, Nat.eqb (length row) (cols m) && forallb px_u8 row) m.

(** ** The cv2 primitives used by the compositor *)
Module cv2.

Definition saturate_cast_uchar (z : Z) : Z := Z.max 0 (Z.min 255 z).

Definition same_size {A B} (a : list (list A)) (b : list (list B)) : bool :=
  bool_decide (length <$> a = length <$> b).

(** [cv2.cvtColor(src, code)]: the conversion [code] applied to each pixel. *)
Definition cvtColor (src : Mat3) (code : Vec3b → Vec3b) : Mat3 :=
  map (map code) src.

(** [cv2.inRange(src, lowerb, upperb)]: 255 where every channel lies between
    the bounds, both included, and 0 elsewhere. *)
Definition in_bounds (lowerb upperb p : Vec3b) : bool :=
  let '(l0, l1, l2) := lowerb in
  let '(u0, u1, u2) := upperb in
  let '(c0, c1, c2) := p in
  (l0 <=? c0) && (c0 <=? u0) && (l1 <=? c1) && (c1 <=? u1)
  && (l2 <=? c2) && (c2 <=? u2).

Definition inRange (src : Mat3) (lowerb upperb : Vec3b) : Mat1 :=
  map (map (λ p, if in_bounds lowerb upperb p then 255 else 0)) src.

(** [cv2.bitwise_not(src)] on an 8-bit single-channel array. *)
Definition bitwise_not (src : Mat1) : Mat1 :=
  map (map (λ x, Z.land (Z.lnot x) 255)) src.

Definition and_px (p q : Vec3b) : Vec3b :=
  let '(p0, p1, p2) := p in
  let '(q0, q1, q2) := q in
  (Z.land p0 q0, Z.land p1 q1, Z.land p2 q2).

(** [cv2.bitwise_and(src1, src2, mask=mask)]: the destination is a fresh
    zero array; the conjunction is stored where the mask is non-zero. *)
Definition bitwise_and (src1 src2 : Mat3) (mask : Mat1) : raises Mat3 :=
  if negb (same_size src1 src2) then inl (cv2_error "bitwise_and")
  else if negb (same_size mask src1) then inl (cv2_error "bitwise_and")
  else inr (zip_with (zip_with (λ p (m : Z), if m =? 0 then (0, 0, 0) else p))
              (zip_with (zip_with and_px) src1 src2) mask).

Definition add_px (p q : Vec3b) : Vec3b :=
  let '(p0, p1, p2) := p in
  let '(q0, q1, q2) := q in
  (saturate_cast_uchar (p0 + q0), saturate_cast_uchar (p1 + q1),
   saturate_cast_uchar (p2 + q2)).

(** [cv2.add(src1, src2)]: per-channel sum clamped to [0, 255]. *)
Definition add (src1 src2 : Mat3) : raises Mat3 :=
  if negb (same_size src1 src2) then inl (cv2_error "add")
  else inr (zip_with (zip_with add_px) src1 src2).

Definition saturate_px (p : Vec3b) : Vec3b :=
  let '(c0, c1, c2) := p in
  (saturate_cast_uchar c0, saturate_cast_uchar c1, saturate_cast_uchar c2).

(** [cv2.resize(src, (w, h))].  [None] reaches OpenCV as an empty array, and
    an empty source or an empty [dsize] fails an assertion.  Otherwise the
    destination has [h] rows and [w] columns; the entry at row [i], column
    [j] is the interpolated value [interp src w h i j], stored as an 8-bit
    value. *)
Definition resize (interp : Mat3 → nat → nat → nat → nat → Vec3b)
    (src : option Mat3) (dsize : nat * nat) : raises Mat3 :=
  let '(w, h) := dsize in
  match src with
  | None => inl (cv2_error "resize")
  | Some s =>
      if Nat.eqb (rows s) 0 || Nat.eqb (cols s) 0 then inl (cv2_error "resize")
      else if Nat.eqb w 0 || Nat.eqb h 0 then inl (cv2_error "resize")
      else inr ((λ i, (λ j, saturate_px (interp s w h i j)) <$> seq 0 w)
                <$> seq 0 h)
  end.

(** The 8-bit BGR to HSV conversion of OpenCV in its integer form: hue on
    the scale 0..179, saturation and value on 0..255.  The section below is
    stated for any conversion; this one instantiates it in the examples. *)
Definition hsv_shift : Z := 12.
Definition round_div (a b : Z) : Z := (2 * a + b) / (2 * b).
Definition sdiv_table (i : Z) : Z :=
  if i =? 0 then 0 else round_div (Z.shiftl 255 hsv_shift) i.
Definition hdiv_table180 (i : Z) : Z :=
  if i =? 0 then 0 else round_div (Z.shiftl 180 hsv_shift) (6 * i).

Definition BGR2HSV_8u (p : Vec3b) : Vec3b :=
  let '(b, g, r) := p in
  let v := Z.max (Z.max b g) r in
  let vmin := Z.min (Z.min b g) r in
  let diff := saturate_cast_uchar (v - vmin) in
  let s := Z.shiftr (diff * sdiv_table v + Z.shiftl 1 (hsv_shift - 1)) hsv_shift in
  let h0 := if v =? r then g - b
            else if v =? g then b - r + 2 * diff
            else r - g + 4 * diff in
  let h1 := Z.shiftr (h0 * hdiv_table180 diff + Z.shiftl 1 (hsv_shift - 1)) hsv_shift in
  let h := if h1 <? 0 then h1 + 180 else h1 in
  (saturate_cast_uchar h, s, v).

(** A nearest-neighbour kernel, one admissible [interp]. *)
Definition nearest (s : Mat3) (w h i j : nat) : Vec3b :=
  default (0, 0, 0) (px s (i * rows s / h)%nat (j * cols s / w)%nat).

End cv2.

(** ** The compositor *)
Section Compositor.
(** [cv2.COLOR_BGR2HSV], per pixel, and the default interpolation of
    [cv2.resize]. *)
Variable COLOR_BGR2HSV : Vec3b → Vec3b.
Variable INTER_LINEAR : Mat3 → nat → nat → nat → nat → Vec3b.

Definition lower_green : Vec3b := (35, 100, 100).
Definition upper_green : Vec3b := (85, 255, 255).

(** The locals of [_combine_images] that depend on the template only. *)
Definition hsv (cover_template : Mat3) : Mat3 :=
  cv2.cvtColor cover_template COLOR_BGR2HSV.
Definition mask (cover_template : Mat3) : Mat1 :=
  cv2.inRange (hsv cover_template) lower_green upper_green.
Definition mask_inv (cover_template : Mat3) : Mat1 :=
  cv2.bitwise_not (mask cover_template).
Definition cover_without_green (cover_template : Mat3) : raises Mat3 :=
  cv2.bitwise_and cover_template cover_template (mask_inv cover_template).
Definition user_image_with_green (cover_template user_image : Mat3) : raises Mat3 :=
  cv2.bitwise_and user_image user_image (mask cover_template).

(** [_combine_images] after the two [cv2.imread] calls: [None] stands for an
    image that could not be read. *)
Definition combine_arrays (user_image cover_template : option Mat3) : raises Mat3 :=
  match cover_template with
  | None => inl AttributeError
  | Some cover_template =>
      user_image ← cv2.resize INTER_LINEAR user_image
                     (cols cover_template, rows cover_template);
      cover_without_green ← cover_without_green cover_template;
      user_image_with_green ← user_image_with_green cover_template user_image;
      cv2.add cover_without_green user_image_with_green
  end.
End Compositor.

(** ** Time stamps

    [datetime.utcnow()] is an input of the handlers; [strftime] with
    ['%Y%m%d%H%M%S'] prints the fields down to the second. *)
Record datetime : Type := {
  year : N; month : N; day : N;
  hour : N; minute : N; second : N; microsecond : N
}.

Definition valid_datetime (t : datetime) : bool :=
  (1000 <=? year t)%N && (year t <=? 9999)%N
  && (1 <=? month t)%N && (month t <=? 12)%N
  && (1 <=? day t)%N && (day t <=? 31)%N
  && (hour t <=? 23)%N && (minute t <=? 59)%N && (second t <=? 59)%N
  && (microsecond t <=? 999999)%N.

Definition digit (d : N) : Ascii.ascii := Ascii.ascii_of_N (48 + d mod 10).

Definition zpad2 (n : N) : string :=
  String (digit (n / 10)) (String (digit n) EmptyString).

Definition zpad4 (n : N) : string :=
  String (digit (n / 1000)) (String (digit (n / 100)) (zpad2 n)).

Definition strftime_YmdHMS (t : datetime) : string :=
  zpad4 (year t) +:+ zpad2 (month t) +:+ zpad2 (day t)
  +:+ zpad2 (hour t) +:+ zpad2 (minute t) +:+ zpad2 (second t).

(** ** Requests, responses, and the state of the service *)
Record FileStorage : Type := { filename : string; content : list Byte.byte }.

Record Request : Type := {
  files : gmap string FileStorage;
  form : gmap string string;
  json : gmap string string
}.

Inductive Response : Type :=
  | jsonify_error (msg : string) (status : Z)
  | jsonify_message (msg : string) (status : Z)
  | send_file (path : string) (mimetype : string).

(** A row of the [MobileModel] table; the primary key [id] is the key of the
    table. *)
Record MobileModel : Type := {
  model_name : string;
  template_filename : string;
  created_at : datetime
}.

Record World : Type := {
  db : gmap Z MobileModel;
  fs : gmap string (list Byte.byte)
}.

Definition UPLOAD_FOLDER : string := "uploads".
Definition COVER_TEMPLATES_FOLDER : string := "cover_templates".
Definition GENERATED_COVERS_FOLDER : string := "generated_covers".

(** [os.path.join(a, b)] for a non-empty [a] without a trailing separator. *)
Definition os_path_join (a b : string) : string :=
  match b with
  | String c _ => if Ascii.eqb c "/"%char then b else a +:+ "/" +:+ b
  | EmptyString => a +:+ "/" +:+ b
  end.

(** ** The table *)
Definition names (t : gmap Z MobileModel) : list string :=
  (λ kv, model_name kv.2) <$> map_to_list t.

(** [query.get(model_id)] *)
Definition query_get (t : gmap Z MobileModel) (model_id : Z) : option MobileModel :=
  t !! model_id.

(** [query.filter_by(model_name=n).first()]; a missing form field compares
    against NULL and matches no row of a non-nullable column. *)
Definition filter_by_first (t : gmap Z MobileModel) (n : option string)
    : option (Z * MobileModel) :=
  n ← n; head (filter (λ kv, model_name kv.2 = n) (map_to_list t)).

(** The key SQLite gives to a new row: 1 in an empty table, otherwise one
    more than the largest key. *)
Definition next_id (t : gmap Z MobileModel) : Z :=
  match fst <$> map_to_list t with
  | [] => 1
  | k :: ks => 1 + foldr Z.max k ks
  end.

(** [db.session.commit()]: the [unique=True] constraint on [model_name] is
    checked by the database. *)
Definition commit (t : gmap Z MobileModel) : raises (gmap Z MobileModel) :=
  if bool_decide (NoDup (names t)) then inr t else inl IntegrityError.

(** ** The handlers *)
Section App.
Variable COLOR_BGR2HSV : Vec3b → Vec3b.
Variable INTER_LINEAR : Mat3 → nat → nat → nat → nat → Vec3b.
(** the decoder behind [cv2.imread], the PNG encoder behind [cv2.imwrite],
    werkzeug's [secure_filename], and Python's [str] on exceptions *)
Variable imdecode : list Byte.byte → option Mat3.
Variable imencode_png : Mat3 → list Byte.byte.
Variable secure_filename : string → string.
Variable str : exn → string.
(** The operating system's view of paths.  The files of [fs] are keyed by
    the file they are, not by the spelling of a path: [resolve path] is the
    key of the regular file that [path] names ([..] and the like resolved),
    and [None] when [path] cannot be opened as a file: it names a
    directory, its name is empty, or its parent directory does not exist.
    [isdir path] tells whether [path] names a directory.  The handlers
    create no directory, so neither depends on the state. *)
Variable resolve : string → option string.
Variable isdir : string → bool.

(** Reading the file at [path]; [None] when there is no such file. *)
Definition read_file (fs : gmap string (list Byte.byte)) (path : string)
    : option (list Byte.byte) :=
  key ← resolve path; fs !! key.

(** Writing the file at [path] ([FileStorage.save], the write of
    [cv2.imwrite]); [None] when [path] cannot be opened for writing. *)
Definition write_file (fs : gmap string (list Byte.byte)) (path : string)
    (bytes : list Byte.byte) : option (gmap string (list Byte.byte)) :=
  key ← resolve path; Some (<[key := bytes]> fs).

(** [os.path.exists(path)]: a directory or a stored file. *)
Definition os_path_exists (fs : gmap string (list Byte.byte)) (path : string) : bool :=
  isdir path || bool_decide (is_Some (read_file fs path)).

(** [cv2.imread(path)]: [None] when the file is missing or does not decode. *)
Definition imread (fs : gmap string (list Byte.byte)) (path : string) : option Mat3 :=
  bs ← read_file fs path; imdecode bs.

(** [cv2.imwrite(path, img)]: it returns [False], and raises nothing, when
    the file cannot be written. *)
Definition imwrite (fs : gmap string (list Byte.byte)) (path : string) (img : Mat3)
    : gmap string (list Byte.byte) :=
  default fs (write_file fs path (imencode_png img)).

Definition _combine_images (fs : gmap string (list Byte.byte))
    (user_image_path template_path : string) : raises Mat3 :=
  let cover_template := imread fs template_path in
  let user_image := imread fs user_image_path in
  combine_arrays COLOR_BGR2HSV INTER_LINEAR user_image cover_template.

Definition handle_exception (e : exn) : Response := jsonify_error (str e) 500.

Definition generated_cover_filename (mobile_model : MobileModel) (now : datetime) : string :=
  model_name mobile_model +:+ "_" +:+ strftime_YmdHMS now +:+ ".png".

Definition _process_image (w : World) (image : FileStorage)
    (mobile_model : MobileModel) (now : datetime) : Response * World :=
  let generated_cover_path :=
    os_path_join GENERATED_COVERS_FOLDER (generated_cover_filename mobile_model now) in
  let filepath := os_path_join UPLOAD_FOLDER (secure_filename (filename image)) in
  (* image.save is outside the try: its error reaches the error handler *)
  match write_file (fs w) filepath (content image) with
  | None => (handle_exception (OSError filepath), w)
  | Some saved =>
      let template_path :=
        os_path_join COVER_TEMPLATES_FOLDER (template_filename mobile_model) in
      if negb (os_path_exists saved template_path) then
        (jsonify_error "Mobile cover template not found!" 500,
         {| db := db w; fs := saved |})
      else
        match _combine_images saved filepath template_path with
        | inl e =>
            (jsonify_error ("Error processing images: " +:+ str e) 500,
             {| db := db w; fs := saved |})
        | inr combined_image =>
            let written := imwrite saved generated_cover_path combined_image in
            (* send_file is outside the try and raises on a missing file *)
            match read_file written generated_cover_path with
            | None =>
                (handle_exception (OSError generated_cover_path),
                 {| db := db w; fs := written |})
            | Some _ =>
                (send_file generated_cover_path "image/png",
                 {| db := db w; fs := written |})
            end
        end
  end.

Definition upload_image (w : World) (req : Request) (now : datetime) : Response * World :=
  match files req !! "image" with
  | None => (jsonify_error "No image uploaded!" 400, w)
  | Some image =>
      let model_name := form req !! "model" in
      match filter_by_first (db w) model_name with
      | None => (jsonify_error "Invalid mobile model!" 400, w)
      | Some (_, mobile_model) =>
          if bool_decide (filename image = "") then
            (jsonify_error "No selected file!" 400, w)
          else _process_image w image mobile_model now
      end
  end.

Definition add_model (w : World) (req : Request) (now : datetime) : Response * World :=
  match files req !! "template_file", form req !! "model_name" with
  | Some template_file, Some model_name =>
      match filter_by_first (db w) (Some model_name) with
      | Some _ => (jsonify_error "Model already exists" 400, w)
      | None =>
          let filename := secure_filename (filename template_file) in
          let template_filepath := os_path_join COVER_TEMPLATES_FOLDER filename in
          match write_file (fs w) template_filepath (content template_file) with
          | None => (handle_exception (OSError template_filepath), w)
          | Some saved =>
              let new_model :=
                {| model_name := model_name; template_filename := filename;
                   created_at := now |} in
              match commit (<[next_id (db w) := new_model]> (db w)) with
              | inl e => (handle_exception e, {| db := db w; fs := saved |})
              | inr t =>
                  (jsonify_message ("Model " +:+ model_name +:+ " added successfully!") 201,
                   {| db := t; fs := saved |})
              end
          end
      end
  | _, _ => (jsonify_error "Model name and template file are required" 400, w)
  end.

(** Python truth of an optional string: present and not empty. *)
Definition truthy (s : option string) : option string :=
  match s with
  | Some EmptyString | None => None
  | Some s => Some s
  end.

Definition update_model (w : World) (req : Request) (model_id : Z) : Response * World :=
  let model_name' := json req !! "model_name" in
  let template_filename' := json req !! "template_filename" in
  match query_get (db w) model_id with
  | None => (jsonify_error "Model not found" 404, w)
  | Some model =>
      let renamed :=
        match truthy model_name' with
        | Some n =>
            match filter_by_first (db w) (Some n) with
            | Some (existing_id, _) =>
                if bool_decide (existing_id ≠ model_id) then None
                else Some {| model_name := n;
                             template_filename := template_filename model;
                             created_at := created_at model |}
            | None => Some {| model_name := n;
                              template_filename := template_filename model;
                              created_at := created_at model |}
            end
        | None => Some model
        end in
      match renamed with
      | None => (jsonify_error "Model name already exists" 400, w)
      | Some model =>
          let model :=
            match truthy template_filename' with
            | Some f => {| model_name := model_name model; template_filename := f;
                           created_at := created_at model |}
            | None => model
            end in
          match commit (<[model_id := model]> (db w)) with
          | inl e => (handle_exception e, w)
          | inr t =>
              (jsonify_message ("Model " +:+ model_name model +:+ " updated successfully!") 200,
               {| db := t; fs := fs w |})
          end
      end
  end.

Definition delete_model (w : World) (model_id : Z) : Response * World :=
  match query_get (db w) model_id with
  | None => (jsonify_error "Model not found" 404, w)
  | Some model =>
      match commit (delete model_id (db w)) with
      | inl e => (handle_exception e, w)
      | inr t =>
          (jsonify_message ("Model " +:+ model_name model +:+ " deleted successfully!") 200,
           {| db := t; fs := fs w |})
      end
  end.
End App.

(** ** The per-pixel select of the specification

    Follows the wording of the specification, not the code: the photo pixel
    where the chroma mask is true, the template pixel where it is false. *)
Definition select_composite (chroma : Mat1) (photo template : Mat3) : Mat3 :=
  zip_with (zip_with (λ (m : Z) (pt : Vec3b * Vec3b), if m =? 0 then pt.2 else pt.1))
    chroma (zip_with (zip_with pair) photo template).

(** The chroma range of the specification, on an HSV triple. *)
Definition in_chroma_range (c : Vec3b) : Prop :=
  let '(h, s, v) := c in
  35 ≤ h ≤ 85 ∧ 100 ≤ s ≤ 255 ∧ 100 ≤ v ≤ 255.

(** ** Notions used by the statements *)


(** [model_name] is pairwise distinct over the rows of the table. *)
Definition unique_model_name (t : gmap Z MobileModel) : Prop :=
  ∀ i j r1 r2, t !! i = Some r1 → t !! j = Some r2 →
    model_name r1 = model_name r2 → i = j.

(** The fields of a time stamp that ['%Y%m%d%H%M%S'] prints. *)
Definition to_the_second (t : datetime) : N * N * N * N * N * N :=
  (year t, month t, day t, hour t, minute t, second t).

(** ** Fixtures for the examples

    A two-by-two template, green on the left and blue on the right, a
    one-pixel white photo, and stand-ins for the decoder, the encoder,
    [secure_filename] and [str]. *)
Definition green : Vec3b := (0, 255, 0).
Definition blue : Vec3b := (255, 0, 0).
Definition white : Vec3b := (255, 255, 255).
Definition template_half : Mat3 := [[green; blue]; [green; blue]].
Definition photo_white : Mat3 := [[white]].

Definition toy_decode (bs : list Byte.byte) : option Mat3 :=
  match bs with
  | [] => None
  | Byte.x01 :: _ => Some template_half
  | _ => Some photo_white
  end.
Definition toy_encode (m : Mat3) : list Byte.byte := [Byte.x02].
Definition toy_secure_filename (s : string) : string := s.
Definition toy_str (e : exn) : string :=
  match e with
  | AttributeError => "AttributeError"
  | cv2_error f => "cv2.error: " +:+ f
  | IntegrityError => "IntegrityError"
  | OSError path => "OSError: " +:+ path
  end.

(** A flat layout: the three folders hold files and no directory; a path
    names a file when it is a folder, a separator and a non-empty name
    without a separator. *)
Fixpoint has_slash (s : string) : bool :=
  match s with
  | EmptyString => false
  | String c s' => Ascii.eqb c "/"%char || has_slash s'
  end.

Definition strip_folder (folder path : string) : option string :=
  if String.prefix (folder +:+ "/") path
  then Some (String.substring (String.length folder + 1)
               (String.length path - (String.length folder + 1)) path)
  else None.

Definition toy_resolve (path : string) : option string :=
  let named folder :=
    match strip_folder folder path with
    | Some name => negb (has_slash name) && negb (bool_decide (name = ""))
    | None => false
    end in
  if named UPLOAD_FOLDER || named COVER_TEMPLATES_FOLDER || named GENERATED_COVERS_FOLDER
  then Some path else None.

Definition toy_isdir (path : string) : bool :=
  bool_decide (path ∈ [UPLOAD_FOLDER; COVER_TEMPLATES_FOLDER; GENERATED_COVERS_FOLDER;
                       UPLOAD_FOLDER +:+ "/"; COVER_TEMPLATES_FOLDER +:+ "/";
                       GENERATED_COVERS_FOLDER +:+ "/"]).

Definition noon : datetime :=
  {| year := 2024; month := 3; day := 9; hour := 12; minute := 0; second := 7;
     microsecond := 0 |}.
Definition noon_later : datetime :=
  {| year := 2024; month := 3; day := 9; hour := 12; minute := 0; second := 7;
     microsecond := 500000 |}.
Definition noon_next : datetime :=
  {| year := 2024; month := 3; day := 9; hour := 12; minute := 0; second := 8;
     microsecond := 0 |}.

Definition iphone : MobileModel :=
  {| model_name := "iphone"; template_filename := "iphone.png"; created_at := noon |}.
Definition pixel : MobileModel :=
  {| model_name := "pixel"; template_filename := "pixel.png"; created_at := noon |}.

Definition world0 : World :=
  {| db := <[1 := iphone]> (<[2 := pixel]> ∅);
     fs := <["cover_templates/iphone.png" := [Byte.x01]]> ∅ |}.

Definition upload_request (model : string) (bytes : list Byte.byte) : Request :=
  {| files := <["image" := {| filename := "me.png"; content := bytes |}]> ∅;
     form := <["model" := model]> ∅;
     json := ∅ |}.

Definition rename_request (n : string) : Request :=
  {| files := ∅; form := <["model_name" := n]> ∅; json := <["model_name" := n]> ∅ |}.

(** ** The read-only handlers *)

(** [datetime.isoformat()]: the fraction is printed only when the
    microseconds are not zero. *)
Definition zpad6 (n : N) : string :=
  String (digit (n / 100000)) (String (digit (n / 10000)) (zpad4 n)).

Definition isoformat (t : datetime) : string :=
  zpad4 (year t) +:+ "-" +:+ zpad2 (month t) +:+ "-" +:+ zpad2 (day t)
  +:+ "T" +:+ zpad2 (hour t) +:+ ":" +:+ zpad2 (minute t) +:+ ":" +:+ zpad2 (second t)
  +:+ (if (microsecond t =? 0)%N then "" else "." +:+ zpad6 (microsecond t)).

(** One entry of the JSON array that [get_models] returns. *)
Record model_data : Type := {
  data_id : Z;
  data_model_name : string;
  data_template_filename : string;
  data_created_at : string
}.

(** [get_models]: the body of the 200 response, one entry per row of
    [query.all()]. *)
Definition get_models (w : World) : list model_data :=
  (λ kv, {| data_id := kv.1;
            data_model_name := model_name kv.2;
            data_template_filename := template_filename kv.2;
            data_created_at := isoformat (created_at kv.2) |})
  <$> map_to_list (db w).

(** [get_generated_cover]: [send_file] raises when the path cannot be
    opened, and the handler turns the exception into a 500;
    [str_send_file_error path] is Python's [str] of that exception. *)
Definition get_generated_cover (resolve : string → option string)
    (str_send_file_error : string → string)
    (w : World) (filename : string) : Response :=
  let path := os_path_join GENERATED_COVERS_FOLDER filename in
  match read_file resolve (fs w) path with
  | Some _ => send_file path "image/png"
  | None =>
      jsonify_error ("Error retrieving cover: " +:+ str_send_file_error path) 500
  end.

(** ** More fixtures *)
Definition add_request (n : string) (bytes : list Byte.byte) : Request :=
  {| files := <["template_file" := {| filename := "galaxy.png"; content := bytes |}]> ∅;
     form := <["model_name" := n]> ∅;
     json := ∅ |}.

Definition retitle_request (f : string) : Request :=
  {| files := ∅; form := ∅; json := <["template_filename" := f]> ∅ |}.

Definition toy_str_send_file_error (path : string) : string :=
  "No such file or directory: " +:+ path.

Definition template_blue : Mat3 := [[blue; blue]].
Definition template_green : Mat3 := [[green]; [green]].
Definition me_png (bytes : list Byte.byte) : FileStorage :=
  {| filename := "me.png"; content := bytes |}.
Definition galaxy_png : FileStorage :=
  {| filename := "galaxy.png"; content := [Byte.x01] |}.

(** The handlers at the stand-ins. *)
Definition toy_upload_image : World → Request → datetime → Response * World :=
  upload_image cv2.BGR2HSV_8u cv2.nearest toy_decode toy_encode
    toy_secure_filename toy_str toy_resolve toy_isdir.
Definition toy_add_model : World → Request → datetime → Response * World :=
  add_model toy_secure_filename toy_str toy_resolve.
Definition toy_update_model : World → Request → Z → Response * World :=
  update_model toy_str.
Definition toy_delete_model : World → Z → Response * World :=
  delete_model toy_str.

(** * Properties *)

(** ** Arrays as lists of rows *)
Section MatLemmas.
Context {A B C : Type}.

Lemma px_map (f : A → B) (m : list (list A)) i j :
  px (map (map f) m) i j = f <$> px m i j.
Proof.
  unfold px. rewrite list_lookup_fmap.
  destruct (m !! i) as [row|]; simpl; [apply list_lookup_fmap | done].
Qed.

Lemma px_zip_with (f : A → B → C) (a : list (list A)) (b : list (list B)) i j :
  px (zip_with (zip_with f) a b) i j = x ← px a i j; y ← px b i j; Some (f x y).
Proof.
  unfold px. rewrite lookup_zip_with.
  destruct (a !! i) as [ra|], (b !! i) as [rb|]; simpl; try done.
  - apply lookup_zip_with.
  - by destruct (ra !! j).
Qed.

Lemma lengths_map (f : A → B) (m : list (list A)) :
  length <$> map (map f) m = length <$> m.
Proof.
  induction m as [|row m IH]; [done|].
  rewrite map_cons, !fmap_cons, length_map. by f_equal.
Qed.

Lemma lengths_zip_with (f : A → B → C) (a : list (list A)) (b : list (list B)) :
  length <$> a = length <$> b →
  length <$> zip_with (zip_with f) a b = length <$> a.
Proof.
  revert b. induction a as [|ra a IH]; intros [|rb b] Hab; simplify_eq/=; [done|].
  rewrite length_zip_with. f_equal; [lia | by apply IH].
Qed.

Lemma lengths_rect (w : nat) (m : list (list A)) :
  rect w m → length <$> m = replicate (rows m) w.
Proof.
  unfold rect, rows. induction 1 as [|row m Hrow _ IH]; [done|].
  rewrite fmap_cons, Hrow, IH. done.
Qed.

Lemma px_is_Some (w : nat) (m : list (list A)) i j :
  rect w m → (i < rows m)%nat → (j < w)%nat → is_Some (px m i j).
Proof.
  intros Hrect Hi Hj. unfold px.
  destruct (lookup_lt_is_Some_2 m i Hi) as [row Hrow]. rewrite Hrow. simpl.
  apply lookup_lt_is_Some_2.
  unfold rect in Hrect. rewrite Forall_lookup in Hrect.
  by rewrite (Hrect _ _ Hrow).
Qed.

Lemma px_bounds (w : nat) (m : list (list A)) i j x :
  rect w m → px m i j = Some x → (i < rows m)%nat ∧ (j < w)%nat.
Proof.
  intros Hrect. unfold px.
  destruct (m !! i) as [row|] eqn:Hrow; simpl; [|done].
  intros Hx. split; [by eapply lookup_lt_Some|].
  unfold rect in Hrect. rewrite Forall_lookup in Hrect.
  rewrite <- (Hrect _ _ Hrow). by eapply lookup_lt_Some.
Qed.
End MatLemmas.

Lemma mat_ext {A} (a b : list (list A)) :
  length <$> a = length <$> b → (∀ i j, px a i j = px b i j) → a = b.
Proof.
  intros Hlen Hpx. apply list_eq. intros i.
  assert (length <$> a !! i = length <$> b !! i) as Hi
    by (by rewrite <- !list_lookup_fmap, Hlen).
  specialize (Hpx i). unfold px in Hpx.
  destruct (a !! i) as [ra|], (b !! i) as [rb|]; simplify_eq/=; [|done].
  f_equal. by apply list_eq.
Qed.

Lemma rect_replicate {A} (w : nat) (m : list (list A)) :
  length <$> m = replicate (rows m) w → rect w m.
Proof.
  unfold rect, rows. induction m as [|row m IH]; simpl; intros Hm; [constructor|].
  simplify_eq. constructor; [done | by apply IH].
Qed.

(** ** Pixels and shapes *)
Lemma valid_image_spec (m : Mat3) :
  valid_image m = true →
  rows m ≠ 0%nat ∧ cols m ≠ 0%nat ∧ rect (cols m) m
  ∧ ∀ i j p, px m i j = Some p → px_u8 p = true.
Proof.
  unfold valid_image. rewrite !andb_true_iff, !negb_true_iff, !Nat.eqb_neq.
  intros [[Hr Hc] Hall]. rewrite forallb_forall in Hall.
  split_and!; [done | done | |].
  - apply Forall_forall. intros row Hin. apply list_elem_of_In in Hin.
    specialize (Hall _ Hin). apply andb_true_iff in Hall as [Hlen _].
    by apply Nat.eqb_eq.
  - intros i j p. unfold px.
    destruct (m !! i) as [row|] eqn:Hrow; [|done]; cbn. intros Hp.
    apply list_elem_of_lookup_2, list_elem_of_In in Hrow.
    specialize (Hall _ Hrow). apply andb_true_iff in Hall as [_ Hpx].
    rewrite forallb_forall in Hpx. apply Hpx.
    by apply list_elem_of_In, list_elem_of_lookup_2 with j.
Qed.

Lemma same_size_true {A B} (a : list (list A)) (b : list (list B)) :
  length <$> a = length <$> b → cv2.same_size a b = true.
Proof. intros H. unfold cv2.same_size. by apply bool_decide_eq_true. Qed.

Lemma and_px_diag (p : Vec3b) : cv2.and_px p p = p.
Proof. destruct p as [[c0 c1] c2]. simpl. by rewrite !Z.land_diag. Qed.

Lemma is_u8_range (z : Z) : is_u8 z = true ↔ 0 ≤ z ≤ 255.
Proof. unfold is_u8. rewrite andb_true_iff, !Z.leb_le. done. Qed.

Lemma saturate_u8 (z : Z) : 0 ≤ z ≤ 255 → cv2.saturate_cast_uchar z = z.
Proof. unfold cv2.saturate_cast_uchar. lia. Qed.

Lemma add_px_zero_r (p : Vec3b) : px_u8 p = true → cv2.add_px p (0, 0, 0) = p.
Proof.
  destruct p as [[c0 c1] c2]. simpl. rewrite !andb_true_iff, !is_u8_range.
  intros [[H0 H1] H2]. rewrite !Z.add_0_r, !saturate_u8 by done. done.
Qed.

Lemma add_px_zero_l (p : Vec3b) : px_u8 p = true → cv2.add_px (0, 0, 0) p = p.
Proof.
  destruct p as [[c0 c1] c2]. simpl. rewrite !andb_true_iff, !is_u8_range.
  intros [[H0 H1] H2]. rewrite !saturate_u8 by done. done.
Qed.

Lemma saturate_px_u8 (p : Vec3b) : px_u8 (cv2.saturate_px p) = true.
Proof.
  destruct p as [[c0 c1] c2]. simpl. rewrite !andb_true_iff, !is_u8_range.
  unfold cv2.saturate_cast_uchar. lia.
Qed.

Lemma in_bounds_green (c : Vec3b) :
  cv2.in_bounds lower_green upper_green c = true ↔ in_chroma_range c.
Proof.
  destruct c as [[h s] v]. unfold cv2.in_bounds, lower_green, upper_green. simpl.
  rewrite !andb_true_iff, !Z.leb_le. tauto.
Qed.

Lemma resize_ok interp (s : Mat3) (w h : nat) :
  valid_image s = true → w ≠ 0%nat → h ≠ 0%nat →
  ∃ r, cv2.resize interp (Some s) (w, h) = inr r
       ∧ length <$> r = replicate h w
       ∧ ∀ i j p, px r i j = Some p → px_u8 p = true.
Proof.
  intros (Hr & Hc & _)%valid_image_spec Hw Hh. unfold cv2.resize.
  apply Nat.eqb_neq in Hr, Hc, Hw, Hh. rewrite Hr, Hc, Hw, Hh. simpl.
  eexists. split; [done|]. split.
  - transitivity (replicate (length (seq 0 h)) w); [|by rewrite length_seq].
    generalize (seq 0 h). intros l.
    induction l as [|i l IH]; [done|].
    rewrite !fmap_cons, length_fmap, length_seq, IH. done.
  - intros i j p. unfold px. rewrite list_lookup_fmap.
    destruct (seq 0 h !! i) as [i'|]; [|done]; cbn.
    rewrite list_lookup_fmap.
    destruct (seq 0 w !! j) as [j'|]; [|done]; cbn.
    intros [= <-]. apply saturate_px_u8.
Qed.

(** ** The compositor *)
Section CompositorProps.
Variable COLOR_BGR2HSV : Vec3b → Vec3b.
Variable INTER_LINEAR : Mat3 → nat → nat → nat → nat → Vec3b.

Local Abbreviation hsv := (hsv COLOR_BGR2HSV).
Local Abbreviation mask := (mask COLOR_BGR2HSV).
Local Abbreviation mask_inv := (mask_inv COLOR_BGR2HSV).
Local Abbreviation cover_without_green := (cover_without_green COLOR_BGR2HSV).
Local Abbreviation user_image_with_green := (user_image_with_green COLOR_BGR2HSV).
Local Abbreviation combine_arrays := (combine_arrays COLOR_BGR2HSV INTER_LINEAR).
Local Abbreviation resize := (cv2.resize INTER_LINEAR).

Lemma px_hsv (T : Mat3) i j : px (hsv T) i j = COLOR_BGR2HSV <$> px T i j.
Proof. apply px_map. Qed.

Lemma px_mask (T : Mat3) i j :
  px (mask T) i j =
  (λ c, if cv2.in_bounds lower_green upper_green c then 255 else 0) <$> px (hsv T) i j.
Proof. apply px_map. Qed.

Lemma px_mask_inv (T : Mat3) i j :
  px (mask_inv T) i j = (λ m, Z.land (Z.lnot m) 255) <$> px (mask T) i j.
Proof. apply (px_map (λ m, Z.land (Z.lnot m) 255)). Qed.

Lemma lengths_mask (T : Mat3) : length <$> mask T = length <$> T.
Proof. unfold mask, cv2.inRange, hsv, cv2.cvtColor. by rewrite !lengths_map. Qed.

Lemma lengths_mask_inv (T : Mat3) : length <$> mask_inv T = length <$> T.
Proof.
  unfold mask_inv, cv2.bitwise_not.
  by rewrite (lengths_map (λ x, Z.land (Z.lnot x) 255)), lengths_mask.
Qed.

(** The run of [_combine_images] on two decoded images: no call raises, and
    every intermediate array has the shape of the template. *)
Lemma combine_arrays_run (T P : Mat3) :
  valid_image T = true → valid_image P = true →
  ∃ P' cwg uig out,
    resize (Some P) (cols T, rows T) = inr P'
    ∧ cover_without_green T = inr cwg
    ∧ user_image_with_green T P' = inr uig
    ∧ cv2.add cwg uig = inr out
    ∧ combine_arrays (Some P) (Some T) = inr out
    ∧ (length <$> P' = length <$> T ∧ length <$> out = length <$> T)
    ∧ (∀ i j p, px P' i j = Some p → px_u8 p = true)
    ∧ (∀ i j, px cwg i j =
         t ← px T i j; m ← px (mask_inv T) i j;
         Some (if m =? 0 then (0, 0, 0) else t))
    ∧ (∀ i j, px uig i j =
         p ← px P' i j; m ← px (mask T) i j;
         Some (if m =? 0 then (0, 0, 0) else p))
    ∧ (∀ i j, px out i j = a ← px cwg i j; b ← px uig i j; Some (cv2.add_px a b)).
Proof.
  intros HT HP.
  destruct (valid_image_spec T HT) as (Hr & Hc & Hrect & _).
  destruct (resize_ok INTER_LINEAR P (cols T) (rows T) HP Hc Hr) as (P' & HP' & HlenP & Hu8).
  assert (length <$> P' = length <$> T) as HPT
    by (by rewrite HlenP, (lengths_rect (cols T) T Hrect)).
  exists P'.
  eexists (zip_with (zip_with _) (zip_with (zip_with cv2.and_px) T T) (mask_inv T)).
  eexists (zip_with (zip_with _) (zip_with (zip_with cv2.and_px) P' P') (mask T)).
  eexists (zip_with (zip_with cv2.add_px) _ _).
  assert (∀ (m : Mat1) (X : Mat3), length <$> m = length <$> X →
    length <$> zip_with (zip_with (λ p (m : Z), if m =? 0 then (0, 0, 0) else p))
      (zip_with (zip_with cv2.and_px) X X) m = length <$> X) as Hlayer.
  { intros m X Hm. rewrite lengths_zip_with; rewrite lengths_zip_with; done. }
  assert (cover_without_green T = inr (zip_with (zip_with (λ p (m : Z), if m =? 0 then (0, 0, 0) else p))
      (zip_with (zip_with cv2.and_px) T T) (mask_inv T))) as Hcwg.
  { unfold cover_without_green, cv2.bitwise_and.
    rewrite !same_size_true; [done | apply lengths_mask_inv | done]. }
  assert (user_image_with_green T P' = inr (zip_with (zip_with (λ p (m : Z), if m =? 0 then (0, 0, 0) else p))
      (zip_with (zip_with cv2.and_px) P' P') (mask T))) as Huig.
  { unfold user_image_with_green, cv2.bitwise_and.
    rewrite !same_size_true; [done | by rewrite lengths_mask | done]. }
  assert (cv2.add
      (zip_with (zip_with (λ p (m : Z), if m =? 0 then (0, 0, 0) else p))
         (zip_with (zip_with cv2.and_px) T T) (mask_inv T))
      (zip_with (zip_with (λ p (m : Z), if m =? 0 then (0, 0, 0) else p))
         (zip_with (zip_with cv2.and_px) P' P') (mask T))
    = inr (zip_with (zip_with cv2.add_px)
      (zip_with (zip_with (λ p (m : Z), if m =? 0 then (0, 0, 0) else p))
         (zip_with (zip_with cv2.and_px) T T) (mask_inv T))
      (zip_with (zip_with (λ p (m : Z), if m =? 0 then (0, 0, 0) else p))
         (zip_with (zip_with cv2.and_px) P' P') (mask T)))) as Hadd.
  { unfold cv2.add. rewrite same_size_true; [done|].
    rewrite !Hlayer; [done | by rewrite lengths_mask | apply lengths_mask_inv]. }
  split_and!; try done.
  - unfold combine_arrays. rewrite HP'. cbn.
    rewrite Hcwg. cbn. rewrite Huig. cbn. apply Hadd.
  - rewrite lengths_zip_with; rewrite !Hlayer;
      try done; try (by rewrite lengths_mask); apply lengths_mask_inv.
  - intros i j. rewrite !px_zip_with.
    destruct (px T i j) as [t|]; [|done]. cbn.
    rewrite and_px_diag. done.
  - intros i j. rewrite !px_zip_with.
    destruct (px P' i j) as [p|]; [|done]. cbn.
    rewrite and_px_diag. done.
  - intros i j. apply px_zip_with.
Qed.
Lemma px_same_shape {A B} (a : list (list A)) (b : list (list B)) i j :
  length <$> a = length <$> b → is_Some (px a i j) → is_Some (px b i j).
Proof.
  intros Hlen. unfold px.
  assert (length <$> a !! i = length <$> b !! i) as Hi
    by (by rewrite <- !list_lookup_fmap, Hlen).
  destruct (a !! i) as [ra|], (b !! i) as [rb|]; simplify_eq/=;
    [|by intros [? ?]].
  intros Hj%lookup_lt_is_Some. apply lookup_lt_is_Some. lia.
Qed.

Lemma mask_value (T : Mat3) i j (c : Vec3b) :
  px (hsv T) i j = Some c →
  (in_chroma_range c ∧ px (mask T) i j = Some 255 ∧ px (mask_inv T) i j = Some 0)
  ∨ (¬ in_chroma_range c ∧ px (mask T) i j = Some 0 ∧ px (mask_inv T) i j = Some 255).
Proof.
  intros Hc.
  assert (px (mask T) i j
          = Some (if cv2.in_bounds lower_green upper_green c then 255 else 0)) as Hm
    by (by rewrite px_mask, Hc).
  rewrite px_mask_inv, Hm.
  destruct (cv2.in_bounds lower_green upper_green c) eqn:Hb.
  - left. apply in_bounds_green in Hb. done.
  - right. split; [|done]. rewrite <- in_bounds_green. congruence.
Qed.

(** C1 (kept pixels).  For a valid template [T] and photo [P], at every
    position where the HSV value of [T] lies outside the chroma range
    (hue 35..85, saturation 100..255, value 100..255), [_combine_images]
    returns an image whose pixel at that position is the pixel of [T]. *)
Theorem combine_pass_through (T P : Mat3) (i j : nat) (c : Vec3b) :
  valid_image T = true → valid_image P = true →
  px (hsv T) i j = Some c → ¬ in_chroma_range c →
  ∃ out t, combine_arrays (Some P) (Some T) = inr out
           ∧ px T i j = Some t ∧ px out i j = Some t.
Proof.
  intros HT HP Hc Hout.
  destruct (combine_arrays_run T P HT HP)
    as (P' & cwg & uig & out & _ & _ & _ & _ & Hrun & [HPT _] & _ & Hcwg & Huig & Hpx).
  destruct (mask_value T i j c Hc) as [[Hin _]|(_ & Hm & Hm')]; [done|].
  rewrite px_hsv in Hc. destruct (px T i j) as [t|] eqn:Ht; [|done].
  destruct (px_same_shape T P' i j (eq_sym HPT)) as [p Hp]; [by rewrite Ht|].
  exists out, t. split_and!; [done | done |].
  rewrite Hpx, Hcwg, Huig, Ht, Hp, Hm, Hm'. cbn -[cv2.add_px].
  rewrite add_px_zero_r; [done|].
  by apply (proj2 (proj2 (proj2 (valid_image_spec T HT))) i j).
Qed.

(** C2 (replaced pixels).  For a valid template [T] and photo [P], at every
    position where the HSV value of [T] lies inside the chroma range, the
    returned image has the pixel of [P] resized to the dimensions of [T]. *)
Theorem combine_replacement (T P : Mat3) (i j : nat) (c : Vec3b) :
  valid_image T = true → valid_image P = true →
  px (hsv T) i j = Some c → in_chroma_range c →
  ∃ out P' p, combine_arrays (Some P) (Some T) = inr out
              ∧ resize (Some P) (cols T, rows T) = inr P'
              ∧ px P' i j = Some p ∧ px out i j = Some p.
Proof.
  intros HT HP Hc Hin.
  destruct (combine_arrays_run T P HT HP)
    as (P' & cwg & uig & out & HP' & _ & _ & _ & Hrun & [HPT _] & Hu8 & Hcwg & Huig & Hpx).
  destruct (mask_value T i j c Hc) as [(_ & Hm & Hm')|[Hout _]]; [|done].
  rewrite px_hsv in Hc. destruct (px T i j) as [t|] eqn:Ht; [|done].
  destruct (px_same_shape T P' i j (eq_sym HPT)) as [p Hp]; [by rewrite Ht|].
  exists out, P', p. split_and!; [done | done | done |].
  rewrite Hpx, Hcwg, Huig, Ht, Hp, Hm, Hm'. cbn -[cv2.add_px].
  rewrite add_px_zero_l; [done|]. by apply (Hu8 i j).
Qed.

(** C3 (dimensions).  For a valid template [T] and photo [P] of any size,
    the whole of [P] is resized to the width and height of [T], and the
    returned image has exactly the height and width of [T]. *)
Theorem composite_dimensions (T P : Mat3) :
  valid_image T = true → valid_image P = true →
  ∃ out P', resize (Some P) (cols T, rows T) = inr P'
            ∧ rows P' = rows T ∧ cols P' = cols T ∧ rect (cols T) P'
            ∧ combine_arrays (Some P) (Some T) = inr out
            ∧ rows out = rows T ∧ cols out = cols T ∧ rect (cols T) out.
Proof.
  intros HT HP.
  destruct (combine_arrays_run T P HT HP)
    as (P' & cwg & uig & out & HP' & _ & _ & _ & Hrun & [HPT HoT] & _).
  destruct (valid_image_spec T HT) as (Hr & Hc & Hrect & _).
  assert (∀ X : Mat3, length <$> X = length <$> T →
    rows X = rows T ∧ cols X = cols T ∧ rect (cols T) X) as Hshape.
  { intros X HX.
    assert (rows X = rows T) as HrX
      by (unfold rows; by rewrite <- (length_fmap length X), HX, length_fmap).
    split; [done|]. split.
    - unfold cols. destruct X as [|x X], T as [|t T']; simplify_eq/=; done.
    - apply rect_replicate. rewrite HX, HrX. by apply lengths_rect. }
  exists out, P'.
  destruct (Hshape P' HPT) as (? & ? & ?). destruct (Hshape out HoT) as (? & ? & ?).
  split_and!; done.
Qed.

(** C4 (chroma mask).  The mask entry at a position of the template is 255
    or 0, and it is non-zero exactly when the HSV value there has hue in
    35..85, saturation in 100..255 and value in 100..255, bounds included. *)
Theorem chroma_mask_iff (T : Mat3) (i j : nat) (h s v : Z) :
  px (hsv T) i j = Some (h, s, v) →
  ∃ m, px (mask T) i j = Some m ∧ (m = 255 ∨ m = 0)
       ∧ (m ≠ 0 ↔ 35 ≤ h ≤ 85 ∧ 100 ≤ s ≤ 255 ∧ 100 ≤ v ≤ 255).
Proof.
  intros Hc.
  destruct (mask_value T i j (h, s, v) Hc) as [(Hin & Hm & _)|(Hout & Hm & _)].
  - exists 255. split_and!; [done | by left |]. split; [done | lia].
  - exists 0. split_and!; [done | by right |]. split; [done | intros; by destruct Hout].
Qed.

(** C5 (addition is a select).  For a valid template and photo, the
    saturating sum of the kept template layer and the inserted photo layer,
    which is what [_combine_images] returns, equals the per-pixel select:
    the resized photo where the mask is set, the template elsewhere. *)
Theorem add_is_select (T P : Mat3) :
  valid_image T = true → valid_image P = true →
  ∃ P' cwg uig,
    resize (Some P) (cols T, rows T) = inr P'
    ∧ cover_without_green T = inr cwg
    ∧ user_image_with_green T P' = inr uig
    ∧ combine_arrays (Some P) (Some T) = cv2.add cwg uig
    ∧ cv2.add cwg uig = inr (select_composite (mask T) P' T).
Proof.
  intros HT HP.
  destruct (combine_arrays_run T P HT HP)
    as (P' & cwg & uig & out & HP' & Hc & Hu & Hadd & Hrun & [HPT HoT] & Hu8 & Hcwg & Huig & Hpx).
  exists P', cwg, uig. split_and!; [done | done | done | congruence |].
  rewrite Hadd. f_equal. apply mat_ext.
  - rewrite HoT. unfold select_composite.
    rewrite lengths_zip_with; [apply eq_sym, lengths_mask|].
    rewrite lengths_zip_with; [|done]. by rewrite lengths_mask.
  - intros i j. unfold select_composite.
    rewrite Hpx, Hcwg, Huig, !px_zip_with, px_mask_inv.
    destruct (px T i j) as [t|] eqn:Ht.
    + destruct (mask_value T i j (COLOR_BGR2HSV t)) as [(_ & Hm & _)|(_ & Hm & _)];
        [by rewrite px_hsv, Ht | |]; rewrite Hm; cbn -[cv2.add_px];
        (destruct (px P' i j) as [p|] eqn:Hp; [|done]); cbn -[cv2.add_px].
      * rewrite add_px_zero_l; [done | by apply (Hu8 i j)].
      * rewrite add_px_zero_r; [done|].
        by apply (proj2 (proj2 (proj2 (valid_image_spec T HT))) i j).
    + assert (px (mask T) i j = None) as -> by (by rewrite px_mask, px_hsv, Ht).
      done.
Qed.

(** C6 (disjoint masks).  For a valid template and photo, at every position
    of the template exactly one of the mask and the inverse mask is set, and
    at least one of the two masked layers is black there. *)
Theorem mask_disjoint (T P : Mat3) (i j : nat) (t : Vec3b) :
  valid_image T = true → valid_image P = true →
  px T i j = Some t →
  ∃ P' cwg uig m m' a b,
    resize (Some P) (cols T, rows T) = inr P'
    ∧ cover_without_green T = inr cwg
    ∧ user_image_with_green T P' = inr uig
    ∧ px (mask T) i j = Some m ∧ px (mask_inv T) i j = Some m'
    ∧ ((m ≠ 0 ∧ m' = 0) ∨ (m = 0 ∧ m' ≠ 0))
    ∧ px cwg i j = Some a ∧ px uig i j = Some b
    ∧ (a = (0, 0, 0) ∨ b = (0, 0, 0)).
Proof.
  intros HT HP Ht.
  destruct (combine_arrays_run T P HT HP)
    as (P' & cwg & uig & out & HP' & Hc & Hu & _ & _ & [HPT _] & _ & Hcwg & Huig & _).
  destruct (px_same_shape T P' i j (eq_sym HPT)) as [p Hp]; [by rewrite Ht|].
  destruct (mask_value T i j (COLOR_BGR2HSV t)) as [(_ & Hm & Hm')|(_ & Hm & Hm')];
    [by rewrite px_hsv, Ht | |].
  - exists P', cwg, uig, 255, 0, (0, 0, 0), p.
    split_and!; try done; [by left | | | by left].
    + by rewrite Hcwg, Ht, Hm'.
    + by rewrite Huig, Hp, Hm.
  - exists P', cwg, uig, 0, 255, t, (0, 0, 0).
    split_and!; try done; [by right | | | by right].
    + by rewrite Hcwg, Ht, Hm'.
    + by rewrite Huig, Hp, Hm.
Qed.
End CompositorProps.

(** ** The table *)
Lemma filter_by_first_None (t : gmap Z MobileModel) (n : string) :
  filter_by_first t (Some n) = None ↔ ∀ i r, t !! i = Some r → model_name r ≠ n.
Proof.
  unfold filter_by_first. cbn. rewrite head_None. split.
  - intros Hnil i r Hir Hn.
    apply (filter_nil_not_elem_of _ _ (i, r) Hnil); [done|].
    by apply elem_of_map_to_list.
  - intros Hall. destruct (filter _ _) as [|[i r] l] eqn:Hf; [done|].
    assert ((i, r) ∈ filter (λ kv, model_name kv.2 = n) (map_to_list t)) as Hin
      by (rewrite Hf; left).
    apply list_elem_of_filter in Hin as [Hn Hin].
    apply elem_of_map_to_list in Hin. by destruct (Hall i r Hin).
Qed.

Lemma filter_by_first_Some (t : gmap Z MobileModel) (n : string) i r :
  filter_by_first t (Some n) = Some (i, r) → t !! i = Some r ∧ model_name r = n.
Proof.
  unfold filter_by_first. cbn. intros Hin%head_Some_elem_of.
  apply list_elem_of_filter in Hin as [Hn Hin].
  by apply elem_of_map_to_list in Hin.
Qed.

Lemma filter_by_first_is_Some (t : gmap Z MobileModel) (n : string) i r :
  t !! i = Some r → model_name r = n → is_Some (filter_by_first t (Some n)).
Proof.
  intros Hir Hn. destruct (filter_by_first t (Some n)) eqn:Hf; [done|].
  rewrite filter_by_first_None in Hf. by destruct (Hf i r Hir).
Qed.

Lemma unique_model_name_NoDup (t : gmap Z MobileModel) :
  unique_model_name t ↔ NoDup (names t).
Proof.
  unfold unique_model_name, names. split.
  - intros Huniq. apply NoDup_fmap_2_strong; [|apply NoDup_map_to_list].
    intros [i r1] [j r2] Hi%elem_of_map_to_list Hj%elem_of_map_to_list Hn.
    cbn in Hn. pose proof (Huniq i j r1 r2 Hi Hj Hn) as <-. congruence.
  - intros Hnd i j r1 r2 Hi%elem_of_map_to_list Hj%elem_of_map_to_list Hn.
    apply list_elem_of_lookup in Hi as [a Ha], Hj as [b Hb].
    rewrite NoDup_alt in Hnd.
    assert (a = b) as ->.
    { apply (Hnd a b (model_name r1)); rewrite list_lookup_fmap.
      - by rewrite Ha.
      - rewrite Hb. cbn. by rewrite Hn. }
    congruence.
Qed.

Lemma commit_unique (t : gmap Z MobileModel) :
  unique_model_name t → commit t = inr t.
Proof.
  intros Hu%unique_model_name_NoDup. unfold commit.
  by rewrite bool_decide_eq_true_2.
Qed.

Lemma next_id_fresh (t : gmap Z MobileModel) : t !! next_id t = None.
Proof.
  destruct (t !! next_id t) as [r|] eqn:Hr; [|done]. exfalso.
  apply elem_of_map_to_list in Hr.
  assert (next_id t ∈ (map_to_list t).*1) as Hin
    by (apply list_elem_of_fmap; by exists (next_id t, r)).
  clear Hr. unfold next_id in Hin.
  assert (∀ (l : list Z) k x, x ∈ k :: l → x ≤ foldr Z.max k l) as Hmax.
  { induction l as [|y l IH]; intros k x Hx.
    - apply list_elem_of_singleton in Hx as ->. done.
    - cbn. apply elem_of_cons in Hx as [->|Hx].
      + specialize (IH k k (list_elem_of_here _ _)). lia.
      + apply elem_of_cons in Hx as [->|Hx]; [lia|].
        specialize (IH k x (list_elem_of_further _ _ _ Hx)). lia. }
  destruct ((map_to_list t).*1) as [|k ks]; [by apply not_elem_of_nil in Hin|].
  apply Hmax in Hin. lia.
Qed.

Lemma unique_insert (t : gmap Z MobileModel) (k : Z) (r : MobileModel) :
  unique_model_name t →
  (∀ i r', t !! i = Some r' → i ≠ k → model_name r' ≠ model_name r) →
  unique_model_name (<[k := r]> t).
Proof.
  intros Hu Hne i j r1 r2 Hi Hj Hn.
  rewrite lookup_insert in Hi. rewrite lookup_insert in Hj.
  destruct (decide (k = i)) as [<-|Hki], (decide (k = j)) as [<-|Hkj]; [done | | |].
  - injection Hi as <-. destruct (Hne j r2 Hj); congruence.
  - injection Hj as <-. destruct (Hne i r1 Hi); congruence.
  - by apply (Hu i j r1 r2).
Qed.

Lemma unique_delete (t : gmap Z MobileModel) (k : Z) :
  unique_model_name t → unique_model_name (delete k t).
Proof.
  intros Hu i j r1 r2 [_ Hi]%lookup_delete_Some [_ Hj]%lookup_delete_Some.
  by apply Hu.
Qed.

(** ** The handlers *)
Section AppProps.
Variable COLOR_BGR2HSV : Vec3b → Vec3b.
Variable INTER_LINEAR : Mat3 → nat → nat → nat → nat → Vec3b.
Variable imdecode : list Byte.byte → option Mat3.
Variable imencode_png : Mat3 → list Byte.byte.
Variable secure_filename : string → string.
Variable str : exn → string.
Variable resolve : string → option string.
Variable isdir : string → bool.

Local Abbreviation write_file := (write_file resolve).
Local Abbreviation imread := (imread imdecode resolve).
Local Abbreviation _combine_images :=
  (_combine_images COLOR_BGR2HSV INTER_LINEAR imdecode resolve).
Local Abbreviation _process_image :=
  (_process_image COLOR_BGR2HSV INTER_LINEAR imdecode imencode_png secure_filename str
     resolve isdir).
Local Abbreviation upload_image :=
  (upload_image COLOR_BGR2HSV INTER_LINEAR imdecode imencode_png secure_filename str
     resolve isdir).
Local Abbreviation add_model := (add_model secure_filename str resolve).
Local Abbreviation update_model := (update_model str).
Local Abbreviation delete_model := (delete_model str).

(** C7 (decode failure).  When the template or the uploaded photo cannot be
    read, [_combine_images] raises at the resize, before any conversion or
    masking: [AttributeError] when the template is missing, [cv2.error] from
    [resize] otherwise.  [_process_image] then answers 500 and produces no
    cover image: the state holds at most the saved upload, and is unchanged
    when [image.save] itself raised. *)
Theorem decode_failure_no_output (w : World) (image : FileStorage)
    (mobile_model : MobileModel) (now : datetime) :
  let filepath := os_path_join UPLOAD_FOLDER (secure_filename (filename image)) in
  let template_path :=
    os_path_join COVER_TEMPLATES_FOLDER (template_filename mobile_model) in
  let after_save := default (fs w) (write_file (fs w) filepath (content image)) in
  imread after_save template_path = None ∨ imread after_save filepath = None →
  _combine_images after_save filepath template_path
    = inl (match imread after_save template_path with
           | Some _ => cv2_error "resize"
           | None => AttributeError
           end)
  ∧ ∃ msg, _process_image w image mobile_model now
           = (jsonify_error msg 500, {| db := db w; fs := after_save |}).
Proof.
  intros filepath template_path after_save Hfail.
  assert (_combine_images after_save filepath template_path
    = inl (match imread after_save template_path with
           | Some _ => cv2_error "resize"
           | None => AttributeError
           end))
    as Hraise.
  { unfold _combine_images, combine_arrays.
    destruct (imread after_save template_path) as [ct|] eqn:Hct; [|done].
    destruct Hfail as [?|Hu]; [done|]. rewrite Hu. done. }
  split; [done|].
  unfold _process_image. fold filepath template_path.
  unfold after_save in *.
  destruct (write_file (fs w) filepath (content image)) as [saved|]; cbn [default] in *.
  - destruct (os_path_exists _ _ saved template_path); cbn [negb]; [|by eexists].
    unfold id in *. rewrite Hraise. by eexists.
  - exists (str (OSError filepath)). unfold handle_exception. by destruct w.
Qed.

(** C10 (unknown model).  When no stored record carries the model name of
    the request, [upload_image] answers with an error and the state is
    unchanged: the photo is not saved and no cover is created. *)
Theorem upload_unknown_model_no_write (w : World) (req : Request) (now : datetime) :
  (∀ i r, db w !! i = Some r → form req !! "model" ≠ Some (model_name r)) →
  ∃ msg, upload_image w req now = (jsonify_error msg 400, w).
Proof.
  intros Hno. unfold upload_image.
  destruct (files req !! "image") as [image|]; [|by eexists].
  assert (filter_by_first (db w) (form req !! "model") = None) as ->; [|by eexists].
  destruct (form req !! "model") as [n|] eqn:Hn; [|done].
  apply filter_by_first_None. intros i r Hir Hname.
  apply (Hno i r Hir). by rewrite Hname.
Qed.




End AppProps.

(** A created row gets a fresh key: [add_model] keeps every earlier row. *)
Lemma add_model_keeps_rows secure_filename str resolve
    (w : World) (req : Request) (now : datetime) (i : Z) (r : MobileModel) :
  db w !! i = Some r →
  db (add_model secure_filename str resolve w req now).2 !! i = Some r.
Proof.
  intros Hir. unfold add_model.
  destruct (files req !! "template_file") as [template_file|]; [|done].
  destruct (form req !! "model_name") as [n|]; [|done].
  destruct (filter_by_first (db w) (Some n)) as [existing|]; [done|].
  destruct (write_file _ _ _ _) as [saved|]; [|done].
  unfold commit. case_bool_decide; [|done]. cbn.
  rewrite lookup_insert_ne; [done|].
  intros <-. by rewrite next_id_fresh in Hir.
Qed.

(** ** File names of generated covers *)
Lemma string_length_app (s t : string) :
  String.length (s +:+ t) = (String.length s + String.length t)%nat.
Proof.
  induction s as [|a s IH]; [done|].
  change (String a s +:+ t) with (String a (s +:+ t)). cbn. by rewrite IH.
Qed.

Lemma string_app_inj_suffix (s1 s2 t1 t2 : string) :
  String.length t1 = String.length t2 →
  s1 +:+ t1 = s2 +:+ t2 → s1 = s2 ∧ t1 = t2.
Proof.
  intros Hlen. revert s2.
  induction s1 as [|a s1 IH]; intros [|b s2] Heq.
  - done.
  - change (t1 = String b (s2 +:+ t2)) in Heq.
    rewrite Heq in Hlen. cbn in Hlen. rewrite string_length_app in Hlen. lia.
  - change (String a (s1 +:+ t1) = t2) in Heq.
    rewrite <- Heq in Hlen. cbn in Hlen. rewrite string_length_app in Hlen. lia.
  - change (String a (s1 +:+ t1) = String b (s2 +:+ t2)) in Heq.
    injection Heq as -> Heq. destruct (IH s2 Heq) as [-> ->]. done.
Qed.

#[local] Ltac Zify.zify_post_hook ::= Z.to_euclidean_division_equations.

Lemma digit_inj (a b : N) : digit a = digit b → (a mod 10 = b mod 10)%N.
Proof.
  unfold digit. intros H.
  apply (f_equal N_of_ascii) in H.
  rewrite !N_ascii_embedding in H by lia. lia.
Qed.

Lemma div_mod_10_inj (x y : N) :
  (x / 10 = y / 10)%N → (x mod 10 = y mod 10)%N → x = y.
Proof.
  intros Hd Hm. rewrite (N.div_mod x 10), (N.div_mod y 10) by done. congruence.
Qed.

Lemma zpad2_inj (a b : N) : (a < 100)%N → (b < 100)%N → zpad2 a = zpad2 b → a = b.
Proof.
  unfold zpad2. intros Ha Hb [= H1%digit_inj H0%digit_inj].
  apply div_mod_10_inj; [|done].
  rewrite !N.mod_small in H1; [done | |]; apply N.Div0.div_lt_upper_bound; lia.
Qed.

Lemma zpad4_inj (a b : N) : (a < 10000)%N → (b < 10000)%N → zpad4 a = zpad4 b → a = b.
Proof.
  unfold zpad4, zpad2.
  intros Ha Hb [= H3%digit_inj H2%digit_inj H1%digit_inj H0%digit_inj].
  assert (∀ x, (x / 1000 = x / 10 / 10 / 10)%N) as E3
    by (intros; by rewrite !N.Div0.div_div).
  assert (∀ x, (x / 100 = x / 10 / 10)%N) as E2
    by (intros; by rewrite !N.Div0.div_div).
  assert (∀ x, (x < 10000 → x / 10 / 10 / 10 < 10)%N) as Hlt.
  { intros x Hx. rewrite !N.Div0.div_div. apply N.Div0.div_lt_upper_bound. lia. }
  rewrite !E3 in H3. rewrite !E2 in H2.
  rewrite !N.mod_small in H3 by (by apply Hlt).
  do 3 (apply div_mod_10_inj; [|done]). done.
Qed.

Lemma string_cons_inj (a : ascii) (s t : string) : String a s = String a t → s = t.
Proof. by intros [= ->]. Qed.

Lemma strftime_YmdHMS_inj (t1 t2 : datetime) :
  valid_datetime t1 = true → valid_datetime t2 = true →
  strftime_YmdHMS t1 = strftime_YmdHMS t2 → to_the_second t1 = to_the_second t2.
Proof.
  unfold valid_datetime. rewrite !andb_true_iff, !N.leb_le.
  intros V1 V2 Heq. unfold strftime_YmdHMS in Heq.
  apply string_app_inj_suffix in Heq as [Hy Heq]; [|reflexivity].
  apply string_app_inj_suffix in Heq as [Hm Heq]; [|reflexivity].
  apply string_app_inj_suffix in Heq as [Hd Heq]; [|reflexivity].
  apply string_app_inj_suffix in Heq as [HH Heq]; [|reflexivity].
  apply string_app_inj_suffix in Heq as [HM HS]; [|reflexivity].
  apply zpad4_inj in Hy; [|lia..].
  apply zpad2_inj in Hm; [|lia..]. apply zpad2_inj in Hd; [|lia..].
  apply zpad2_inj in HH; [|lia..]. apply zpad2_inj in HM; [|lia..].
  apply zpad2_inj in HS; [|lia..].
  unfold to_the_second. congruence.
Qed.

(** C8, as the code has it.  Two generated cover file names differ whenever
    the model names differ or the UTC time stamps differ in a field down to
    the second. *)
Theorem cover_filename_distinct (m1 m2 : MobileModel) (now1 now2 : datetime) :
  valid_datetime now1 = true → valid_datetime now2 = true →
  model_name m1 ≠ model_name m2 ∨ to_the_second now1 ≠ to_the_second now2 →
  generated_cover_filename m1 now1 ≠ generated_cover_filename m2 now2.
Proof.
  intros V1 V2 Hdiff Heq. unfold generated_cover_filename in Heq.
  apply string_app_inj_suffix in Heq as [Hname Heq]; [|reflexivity].
  apply (string_cons_inj "_") in Heq.
  apply string_app_inj_suffix in Heq as [Hts _]; [|reflexivity].
  apply strftime_YmdHMS_inj in Hts; [|done..].
  by destruct Hdiff.
Qed.

(** ** Examples and instances

    The statements above at the fixtures, with OpenCV's integer HSV
    conversion and a nearest-neighbour kernel. *)
Example scenario_half_green :
  combine_arrays cv2.BGR2HSV_8u cv2.nearest (Some photo_white) (Some template_half)
  = inr [[white; blue]; [white; blue]].
Proof. vm_compute. reflexivity. Qed.

Lemma combine_pass_through_witness :
  ∃ out t,
    combine_arrays cv2.BGR2HSV_8u cv2.nearest (Some photo_white) (Some template_half)
      = inr out
    ∧ px template_half 0 1 = Some t ∧ px out 0 1 = Some t.
Proof.
  apply (combine_pass_through cv2.BGR2HSV_8u cv2.nearest template_half photo_white
           0 1 (120, 255, 255)); [reflexivity | reflexivity | reflexivity |].
  unfold in_chroma_range. lia.
Defined.

Lemma combine_replacement_witness :
  ∃ out P' p,
    combine_arrays cv2.BGR2HSV_8u cv2.nearest (Some photo_white) (Some template_half)
      = inr out
    ∧ cv2.resize cv2.nearest (Some photo_white) (cols template_half, rows template_half)
      = inr P'
    ∧ px P' 1 0 = Some p ∧ px out 1 0 = Some p.
Proof.
  apply (combine_replacement cv2.BGR2HSV_8u cv2.nearest template_half photo_white
           1 0 (60, 255, 255)); [reflexivity | reflexivity | reflexivity |].
  unfold in_chroma_range. lia.
Defined.

Lemma composite_dimensions_witness :
  ∃ out P',
    cv2.resize cv2.nearest (Some photo_white) (cols template_half, rows template_half)
      = inr P'
    ∧ rows P' = rows template_half ∧ cols P' = cols template_half
    ∧ rect (cols template_half) P'
    ∧ combine_arrays cv2.BGR2HSV_8u cv2.nearest (Some photo_white) (Some template_half)
      = inr out
    ∧ rows out = rows template_half ∧ cols out = cols template_half
    ∧ rect (cols template_half) out.
Proof.
  apply (composite_dimensions cv2.BGR2HSV_8u cv2.nearest template_half photo_white);
    reflexivity.
Defined.

Lemma chroma_mask_iff_witness :
  ∃ m, px (mask cv2.BGR2HSV_8u template_half) 0 0 = Some m ∧ (m = 255 ∨ m = 0)
       ∧ (m ≠ 0 ↔ 35 ≤ 60 ≤ 85 ∧ 100 ≤ 255 ≤ 255 ∧ 100 ≤ 255 ≤ 255).
Proof.
  apply (chroma_mask_iff cv2.BGR2HSV_8u template_half 0 0 60 255 255). reflexivity.
Defined.

Lemma add_is_select_witness :
  ∃ P' cwg uig,
    cv2.resize cv2.nearest (Some photo_white) (cols template_half, rows template_half)
      = inr P'
    ∧ cover_without_green cv2.BGR2HSV_8u template_half = inr cwg
    ∧ user_image_with_green cv2.BGR2HSV_8u template_half P' = inr uig
    ∧ combine_arrays cv2.BGR2HSV_8u cv2.nearest (Some photo_white) (Some template_half)
      = cv2.add cwg uig
    ∧ cv2.add cwg uig
      = inr (select_composite (mask cv2.BGR2HSV_8u template_half) P' template_half).
Proof.
  apply (add_is_select cv2.BGR2HSV_8u cv2.nearest template_half photo_white);
    reflexivity.
Defined.

Lemma mask_disjoint_witness :
  ∃ P' cwg uig m m' a b,
    cv2.resize cv2.nearest (Some photo_white) (cols template_half, rows template_half)
      = inr P'
    ∧ cover_without_green cv2.BGR2HSV_8u template_half = inr cwg
    ∧ user_image_with_green cv2.BGR2HSV_8u template_half P' = inr uig
    ∧ px (mask cv2.BGR2HSV_8u template_half) 0 1 = Some m
    ∧ px (mask_inv cv2.BGR2HSV_8u template_half) 0 1 = Some m'
    ∧ ((m ≠ 0 ∧ m' = 0) ∨ (m = 0 ∧ m' ≠ 0))
    ∧ px cwg 0 1 = Some a ∧ px uig 0 1 = Some b
    ∧ (a = (0, 0, 0) ∨ b = (0, 0, 0)).
Proof.
  apply (mask_disjoint cv2.BGR2HSV_8u cv2.nearest template_half photo_white 0 1 blue);
    reflexivity.
Defined.

Lemma world0_unique : unique_model_name (db world0).
Proof.
  apply unique_model_name_NoDup. apply (bool_decide_unpack _). vm_compute. exact I.
Qed.

Lemma decode_failure_no_output_witness :
  _combine_images cv2.BGR2HSV_8u cv2.nearest toy_decode toy_resolve
    (<["uploads/me.png" := []]> (fs world0)) "uploads/me.png" "cover_templates/iphone.png"
    = inl (cv2_error "resize")
  ∧ ∃ msg,
      _process_image cv2.BGR2HSV_8u cv2.nearest toy_decode toy_encode
        toy_secure_filename toy_str toy_resolve toy_isdir world0
        {| filename := "me.png"; content := [] |} iphone noon
      = (jsonify_error msg 500,
         {| db := db world0; fs := <["uploads/me.png" := []]> (fs world0) |}).
Proof.
  apply (decode_failure_no_output cv2.BGR2HSV_8u cv2.nearest toy_decode toy_encode
           toy_secure_filename toy_str toy_resolve toy_isdir world0
           {| filename := "me.png"; content := [] |} iphone noon).
  right. vm_compute. reflexivity.
Defined.

(** A file name that [secure_filename] empties: [image.save] raises on the
    folder itself, the answer is the 500 of the error handler, and nothing
    is stored. *)
Example unsaved_upload_stores_nothing :
  _process_image cv2.BGR2HSV_8u cv2.nearest toy_decode toy_encode
    toy_secure_filename toy_str toy_resolve toy_isdir world0
    {| filename := ""; content := [Byte.x03] |} iphone noon
  = (jsonify_error "OSError: uploads/" 500, world0).
Proof. vm_compute. reflexivity. Qed.

(** A model name with a separator: [cv2.imwrite] writes nothing, [send_file]
    raises, and the answer is a 500 with the upload stored and no cover. *)
Example unwritable_cover_is_a_500 :
  _process_image cv2.BGR2HSV_8u cv2.nearest toy_decode toy_encode
    toy_secure_filename toy_str toy_resolve toy_isdir world0
    {| filename := "me.png"; content := [Byte.x03] |}
    {| model_name := "a/b"; template_filename := "iphone.png"; created_at := noon |}
    noon
  = (jsonify_error "OSError: generated_covers/a/b_20240309120007.png" 500,
     {| db := db world0; fs := <["uploads/me.png" := [Byte.x03]]> (fs world0) |}).
Proof. vm_compute. reflexivity. Qed.

Lemma upload_unknown_model_no_write_witness :
  ∃ msg,
    upload_image cv2.BGR2HSV_8u cv2.nearest toy_decode toy_encode
      toy_secure_filename toy_str toy_resolve toy_isdir
      world0 (upload_request "nokia" [Byte.x03]) noon
    = (jsonify_error msg 400, world0).
Proof.
  apply (upload_unknown_model_no_write cv2.BGR2HSV_8u cv2.nearest toy_decode
           toy_encode toy_secure_filename toy_str toy_resolve toy_isdir world0
           (upload_request "nokia" [Byte.x03]) noon).
  intros i r Hir. unfold world0 in Hir. cbn in Hir.
  rewrite lookup_insert in Hir. case_decide.
  - by injection Hir as <-.
  - rewrite lookup_insert in Hir. case_decide; [by injection Hir as <-|].
    by rewrite lookup_empty in Hir.
Defined.


Lemma cover_filename_distinct_witness :
  generated_cover_filename iphone noon ≠ generated_cover_filename iphone noon_next.
Proof.
  apply (cover_filename_distinct iphone iphone noon noon_next);
    [reflexivity | reflexivity |].
  right. discriminate.
Defined.

(** C8, as stated, fails: two uploads for the same model within one second,
    the second served after the first, are answered with the same generated
    cover file. *)
Lemma cover_filename_collision :
  let upload :=
    upload_image cv2.BGR2HSV_8u cv2.nearest toy_decode toy_encode
      toy_secure_filename toy_str toy_resolve toy_isdir in
  let first := upload world0 (upload_request "iphone" [Byte.x03]) noon in
  let second := upload first.2 (upload_request "iphone" [Byte.x03]) noon_later in
  noon ≠ noon_later
  ∧ first.1 = send_file "generated_covers/iphone_20240309120007.png" "image/png"
  ∧ second.1 = send_file "generated_covers/iphone_20240309120007.png" "image/png"
  ∧ generated_cover_filename iphone noon = generated_cover_filename iphone noon_later.
Proof.
  cbv zeta. split_and!; [discriminate | vm_compute; reflexivity
    | vm_compute; reflexivity | reflexivity].
Qed.

(** * Further properties of the code *)

(** ** The compositor, pixel by pixel *)
Lemma same_lengths_shape {A B} (X : list (list A)) (T : list (list B)) :
  length <$> X = length <$> T → rows X = rows T ∧ cols X = cols T.
Proof.
  intros HX. split.
  - unfold rows. by rewrite <- (length_fmap length X), HX, length_fmap.
  - unfold cols. destruct X as [|x X], T as [|t T']; simplify_eq/=; done.
Qed.

Lemma valid_image_same_shape (T m : Mat3) :
  valid_image T = true → length <$> m = length <$> T →
  (∀ i j p, px m i j = Some p → px_u8 p = true) →
  valid_image m = true.
Proof.
  intros (Hr & Hc & Hrect & _)%valid_image_spec Hlen Hu8.
  destruct (same_lengths_shape m T Hlen) as [Hrows Hcols].
  assert (rect (cols T) m) as Hrectm.
  { apply rect_replicate. rewrite Hlen, Hrows. by apply lengths_rect. }
  unfold valid_image. rewrite Hrows, Hcols.
  rewrite !andb_true_iff, !negb_true_iff, !Nat.eqb_neq. split; [done|].
  apply forallb_forall. intros row Hin.
  apply list_elem_of_In, list_elem_of_lookup in Hin as [i Hi].
  apply andb_true_iff. split.
  - apply Nat.eqb_eq. unfold rect in Hrectm. rewrite Forall_lookup in Hrectm.
    by apply (Hrectm i).
  - apply forallb_forall. intros p Hp.
    apply list_elem_of_In, list_elem_of_lookup in Hp as [j Hj].
    apply (Hu8 i j). unfold px. rewrite Hi. done.
Qed.

Section CompositorMore.
Variable COLOR_BGR2HSV : Vec3b → Vec3b.
Variable INTER_LINEAR : Mat3 → nat → nat → nat → nat → Vec3b.

Local Abbreviation combine_arrays := (combine_arrays COLOR_BGR2HSV INTER_LINEAR).
Local Abbreviation resize := (cv2.resize INTER_LINEAR).

(** The returned array, entry by entry. *)
Lemma combine_arrays_px (T P : Mat3) :
  valid_image T = true → valid_image P = true →
  ∃ P' out,
    resize (Some P) (cols T, rows T) = inr P'
    ∧ combine_arrays (Some P) (Some T) = inr out
    ∧ length <$> P' = length <$> T ∧ length <$> out = length <$> T
    ∧ (∀ i j p, px P' i j = Some p → px_u8 p = true)
    ∧ ∀ i j, px out i j =
        t ← px T i j; p ← px P' i j;
        Some (if cv2.in_bounds lower_green upper_green (COLOR_BGR2HSV t) then p else t).
Proof.
  intros HT HP.
  destruct (combine_arrays_run COLOR_BGR2HSV INTER_LINEAR T P HT HP)
    as (P' & cwg & uig & out & HP' & _ & _ & _ & Hrun & [HPT HoT] & Hu8 & Hcwg & Huig & Hpx).
  exists P', out. split_and!; try done.
  intros i j. rewrite Hpx, Hcwg, Huig, px_mask_inv, px_mask, px_hsv.
  destruct (px T i j) as [t|] eqn:Ht; [|done].
  assert (px_u8 t = true) as Ht8
    by (by apply (proj2 (proj2 (proj2 (valid_image_spec T HT))) i j)).
  destruct (px P' i j) as [p|] eqn:Hp; cbn -[cv2.add_px cv2.in_bounds]; [|done].
  assert (px_u8 p = true) as Hp8 by (by apply (Hu8 i j)).
  destruct (cv2.in_bounds lower_green upper_green (COLOR_BGR2HSV t));
    cbn -[cv2.add_px]; by rewrite ?add_px_zero_l, ?add_px_zero_r.
Qed.

Lemma combine_arrays_valid (T P : Mat3) :
  valid_image T = true → valid_image P = true →
  ∃ out, combine_arrays (Some P) (Some T) = inr out ∧ valid_image out = true.
Proof.
  intros HT HP.
  destruct (combine_arrays_px T P HT HP) as (P' & out & _ & Hrun & HPT & HoT & Hu8 & Hpx).
  exists out. split; [done|].
  apply (valid_image_same_shape T); [done | done |].
  intros i j q. rewrite Hpx.
  destruct (px T i j) as [t|] eqn:Ht; [|done].
  destruct (px P' i j) as [p|] eqn:Hp; [|done]. cbn -[cv2.in_bounds].
  destruct (cv2.in_bounds _ _ _); intros [= <-].
  - by apply (Hu8 i j).
  - by apply (proj2 (proj2 (proj2 (valid_image_spec T HT))) i j).
Qed.

(** X1.  The image returned for a valid template and photo is itself a
    valid image: not empty, rectangular, every channel within 0..255. *)
Theorem combine_output_valid (T P : Mat3) :
  valid_image T = true → valid_image P = true →
  ∃ out, combine_arrays (Some P) (Some T) = inr out ∧ valid_image out = true.
Proof. apply combine_arrays_valid. Qed.

(** X2.  Compositing is idempotent: feeding the returned image back as the
    template, with the same photo, returns the same image. *)
Theorem combine_idempotent (T P out : Mat3) :
  valid_image T = true → valid_image P = true →
  combine_arrays (Some P) (Some T) = inr out →
  combine_arrays (Some P) (Some out) = inr out.
Proof.
  intros HT HP Hout.
  destruct (combine_arrays_px T P HT HP) as (P' & out' & HP' & Hrun & HPT & HoT & Hu8 & Hpx).
  assert (out' = out) as -> by congruence.
  destruct (combine_arrays_valid T P HT HP) as (out' & Hrun' & Hvalid).
  assert (out' = out) as -> by congruence.
  destruct (combine_arrays_px out P Hvalid HP)
    as (P2 & out2 & HP2 & Hrun2 & _ & Ho2 & _ & Hpx2).
  destruct (same_lengths_shape out T HoT) as [Hrows Hcols].
  rewrite Hrows, Hcols, HP' in HP2. injection HP2 as <-.
  rewrite Hrun2. f_equal. apply mat_ext; [done|].
  intros i j. rewrite Hpx2, Hpx.
  destruct (px T i j) as [t|]; [|done].
  destruct (px P' i j) as [p|]; [|done]. cbn -[cv2.in_bounds].
  destruct (cv2.in_bounds lower_green upper_green (COLOR_BGR2HSV t)) eqn:Hb.
  - by destruct (cv2.in_bounds lower_green upper_green (COLOR_BGR2HSV p)).
  - by rewrite Hb.
Qed.

(** X3.  A template with no pixel in the chroma range is returned
    unchanged, whatever the photo. *)
Theorem combine_no_green (T P : Mat3) :
  valid_image T = true → valid_image P = true →
  (∀ i j c, px (hsv COLOR_BGR2HSV T) i j = Some c → ¬ in_chroma_range c) →
  combine_arrays (Some P) (Some T) = inr T.
Proof.
  intros HT HP Hnone.
  destruct (combine_arrays_px T P HT HP) as (P' & out & _ & Hrun & HPT & HoT & _ & Hpx).
  rewrite Hrun. f_equal. apply mat_ext; [done|].
  intros i j. rewrite Hpx.
  destruct (px T i j) as [t|] eqn:Ht; [|done].
  destruct (px_same_shape T P' i j (eq_sym HPT)) as [p Hp]; [by rewrite Ht|].
  rewrite Hp. cbn -[cv2.in_bounds].
  destruct (cv2.in_bounds lower_green upper_green (COLOR_BGR2HSV t)) eqn:Hb; [|done].
  apply in_bounds_green in Hb. destruct (Hnone i j (COLOR_BGR2HSV t)); [|done].
  by rewrite px_hsv, Ht.
Qed.

(** X4.  A template whose every pixel is in the chroma range is replaced
    entirely: the returned image is the photo resized to the template. *)
Theorem combine_all_green (T P : Mat3) :
  valid_image T = true → valid_image P = true →
  (∀ i j c, px (hsv COLOR_BGR2HSV T) i j = Some c → in_chroma_range c) →
  combine_arrays (Some P) (Some T) = resize (Some P) (cols T, rows T).
Proof.
  intros HT HP Hall.
  destruct (combine_arrays_px T P HT HP) as (P' & out & HP' & Hrun & HPT & HoT & _ & Hpx).
  rewrite Hrun, HP'. f_equal. apply mat_ext; [congruence|].
  intros i j. rewrite Hpx.
  destruct (px P' i j) as [p|] eqn:Hp.
  - destruct (px_same_shape P' T i j HPT) as [t Ht]; [by rewrite Hp|].
    rewrite Ht. cbn -[cv2.in_bounds].
    destruct (cv2.in_bounds lower_green upper_green (COLOR_BGR2HSV t)) eqn:Hb; [done|].
    assert (in_chroma_range (COLOR_BGR2HSV t)) as Hin
      by (apply (Hall i j); by rewrite px_hsv, Ht).
    apply in_bounds_green in Hin. congruence.
  - by destruct (px T i j).
Qed.
End CompositorMore.

(** ** The upload path *)
Section HandlersMore.
Variable COLOR_BGR2HSV : Vec3b → Vec3b.
Variable INTER_LINEAR : Mat3 → nat → nat → nat → nat → Vec3b.
Variable imdecode : list Byte.byte → option Mat3.
Variable imencode_png : Mat3 → list Byte.byte.
Variable secure_filename : string → string.
Variable str : exn → string.
Variable resolve : string → option string.
Variable isdir : string → bool.
Variable str_send_file_error : string → string.

Local Abbreviation read_file := (read_file resolve).
Local Abbreviation write_file := (write_file resolve).
Local Abbreviation os_path_exists := (os_path_exists resolve isdir).
Local Abbreviation imread := (imread imdecode resolve).
Local Abbreviation _combine_images :=
  (_combine_images COLOR_BGR2HSV INTER_LINEAR imdecode resolve).
Local Abbreviation _process_image :=
  (_process_image COLOR_BGR2HSV INTER_LINEAR imdecode imencode_png secure_filename str
     resolve isdir).
Local Abbreviation upload_image :=
  (upload_image COLOR_BGR2HSV INTER_LINEAR imdecode imencode_png secure_filename str
     resolve isdir).
Local Abbreviation add_model := (add_model secure_filename str resolve).
Local Abbreviation update_model := (update_model str).
Local Abbreviation delete_model := (delete_model str).
Local Abbreviation get_generated_cover :=
  (get_generated_cover resolve str_send_file_error).

(** What [_process_image] leaves behind: nothing when [image.save] raised;
    otherwise the upload, and the cover exactly when a file is served. *)
Lemma _process_image_cases (w : World) (image : FileStorage)
    (mobile_model : MobileModel) (now : datetime) :
  let filepath := os_path_join UPLOAD_FOLDER (secure_filename (filename image)) in
  let template_path :=
    os_path_join COVER_TEMPLATES_FOLDER (template_filename mobile_model) in
  let generated_cover_path :=
    os_path_join GENERATED_COVERS_FOLDER (generated_cover_filename mobile_model now) in
  (write_file (fs w) filepath (content image) = None
   ∧ _process_image w image mobile_model now = (handle_exception str (OSError filepath), w))
  ∨ ∃ saved,
      write_file (fs w) filepath (content image) = Some saved
      ∧ ((∃ msg, _process_image w image mobile_model now
                 = (jsonify_error msg 500, {| db := db w; fs := saved |}))
         ∨ ∃ combined_image key,
             _combine_images saved filepath template_path = inr combined_image
             ∧ os_path_exists saved template_path = true
             ∧ resolve generated_cover_path = Some key
             ∧ _process_image w image mobile_model now
               = (send_file generated_cover_path "image/png",
                  {| db := db w;
                     fs := <[key := imencode_png combined_image]> saved |})).
Proof.
  cbv zeta. unfold _process_image.
  destruct (write_file (fs w) _ (content image)) as [saved|] eqn:Hsave; [|by left].
  right. exists saved. split; [done|].
  destruct (os_path_exists saved _) eqn:Hexists; cbn [negb]; [|left; by eexists].
  destruct (_combine_images _ _ _) as [e|combined_image] eqn:Hc; [left; by eexists|].
  unfold imwrite, write_file, read_file.
  destruct (resolve (os_path_join GENERATED_COVERS_FOLDER _)) as [key|] eqn:Hkey;
    cbn [mbind option_bind default from_option id].
  - unfold id. rewrite lookup_insert_eq. right. by exists combined_image, key.
  - left. by eexists.
Qed.

(** With the upload saved, the template in place and a cover path that can
    be written, the outcome is decided by the compositor alone. *)
Lemma _process_image_run (w : World) (image : FileStorage)
    (mobile_model : MobileModel) (now : datetime)
    (saved : gmap string (list Byte.byte)) (key : string) :
  let filepath := os_path_join UPLOAD_FOLDER (secure_filename (filename image)) in
  let template_path :=
    os_path_join COVER_TEMPLATES_FOLDER (template_filename mobile_model) in
  let generated_cover_path :=
    os_path_join GENERATED_COVERS_FOLDER (generated_cover_filename mobile_model now) in
  write_file (fs w) filepath (content image) = Some saved →
  os_path_exists saved template_path = true →
  resolve generated_cover_path = Some key →
  _process_image w image mobile_model now
  = match _combine_images saved filepath template_path with
    | inl e =>
        (jsonify_error ("Error processing images: " +:+ str e) 500,
         {| db := db w; fs := saved |})
    | inr combined_image =>
        (send_file generated_cover_path "image/png",
         {| db := db w; fs := <[key := imencode_png combined_image]> saved |})
    end.
Proof.
  cbv zeta. intros Hsave Hexists Hkey. unfold _process_image.
  rewrite Hsave, Hexists. cbn [negb].
  destruct (_combine_images _ _ _) as [e|combined_image]; [done|].
  unfold imwrite, write_file, read_file. rewrite Hkey.
  cbn [mbind option_bind default from_option id]. unfold id.
  by rewrite lookup_insert_eq.
Qed.

(** X5.  [upload_image] never changes the table of models, whatever the
    request and whatever the outcome. *)
Theorem upload_image_keeps_table (w : World) (req : Request) (now : datetime) :
  db (upload_image w req now).2 = db w.
Proof.
  unfold upload_image.
  destruct (files req !! "image") as [image|]; [|done].
  destruct (filter_by_first _ _) as [[k m]|]; [|done].
  case_bool_decide; [done|].
  destruct (_process_image_cases w image m now)
    as [[_ ->]|(saved & _ & [[msg ->]|(c & key & _ & _ & _ & ->)])]; done.
Qed.

(** X6.  [upload_image] writes at most two files, the ones that the upload
    path and the generated cover path resolve to: every other file keeps
    its content. *)
Theorem upload_image_frame (w : World) (req : Request) (now : datetime)
    (image : FileStorage) (k : Z) (m : MobileModel) (key : string) :
  files req !! "image" = Some image →
  filter_by_first (db w) (form req !! "model") = Some (k, m) →
  resolve (os_path_join UPLOAD_FOLDER (secure_filename (filename image))) ≠ Some key →
  resolve (os_path_join GENERATED_COVERS_FOLDER (generated_cover_filename m now))
    ≠ Some key →
  fs (upload_image w req now).2 !! key = fs w !! key.
Proof.
  intros Himg Hm Hup Hgen. unfold upload_image. rewrite Himg, Hm.
  case_bool_decide; [done|].
  assert (∀ saved, write_file (fs w)
            (os_path_join UPLOAD_FOLDER (secure_filename (filename image)))
            (content image) = Some saved → saved !! key = fs w !! key) as Hsaved.
  { intros saved. unfold write_file.
    destruct (resolve (os_path_join UPLOAD_FOLDER _)) as [kf|]; [|done].
    intros [= <-]. rewrite lookup_insert_ne; [done|]. congruence. }
  destruct (_process_image_cases w image m now)
    as [[_ ->]|(saved & Hsave & [[msg ->]|(c & kg & _ & _ & Hkg & ->)])]; cbn [snd fs].
  - done.
  - by apply Hsaved.
  - rewrite lookup_insert_ne by congruence. by apply Hsaved.
Qed.

(** X7.  An upload that passes the checks, whose file is saved, whose
    template and photo both decode to valid images, and whose cover path
    can be written, succeeds: the answer serves the generated cover, and the
    state holds the saved upload and the encoded composite. *)
Theorem upload_image_success (w : World) (req : Request) (now : datetime)
    (image : FileStorage) (k : Z) (m : MobileModel) (T P : Mat3)
    (saved : gmap string (list Byte.byte)) (key : string) :
  let filepath := os_path_join UPLOAD_FOLDER (secure_filename (filename image)) in
  let template_path := os_path_join COVER_TEMPLATES_FOLDER (template_filename m) in
  let generated_cover_path :=
    os_path_join GENERATED_COVERS_FOLDER (generated_cover_filename m now) in
  files req !! "image" = Some image →
  filter_by_first (db w) (form req !! "model") = Some (k, m) →
  filename image ≠ "" →
  write_file (fs w) filepath (content image) = Some saved →
  imread saved template_path = Some T → imread saved filepath = Some P →
  valid_image T = true → valid_image P = true →
  resolve generated_cover_path = Some key →
  ∃ out,
    combine_arrays COLOR_BGR2HSV INTER_LINEAR (Some P) (Some T) = inr out
    ∧ upload_image w req now
      = (send_file generated_cover_path "image/png",
         {| db := db w; fs := <[key := imencode_png out]> saved |}).
Proof.
  intros filepath template_path generated_cover_path
    Himg Hm Hname Hsave HT HP HvT HvP Hkey.
  destruct (combine_arrays_valid COLOR_BGR2HSV INTER_LINEAR T P HvT HvP)
    as (out & Hout & _).
  exists out. split; [done|].
  unfold upload_image. rewrite Himg, Hm. rewrite bool_decide_eq_false_2 by done.
  assert (os_path_exists saved template_path = true) as Hexists.
  { unfold os_path_exists. apply orb_true_iff. right. apply bool_decide_eq_true.
    unfold imread in HT. destruct (read_file saved template_path); [by eexists|done]. }
  rewrite (_process_image_run w image m now saved key Hsave Hexists Hkey).
  fold filepath template_path generated_cover_path.
  unfold _combine_images. by rewrite HT, HP, Hout.
Qed.

(** X8.  Once the checks are passed, every error answer is a 500 and leaves
    no cover behind: the state holds the upload when [image.save] succeeded,
    and is unchanged when it raised. *)
Theorem upload_failure_writes_no_cover (w w' : World) (req : Request) (now : datetime)
    (image : FileStorage) (k : Z) (m : MobileModel) (msg : string) (status : Z) :
  files req !! "image" = Some image →
  filter_by_first (db w) (form req !! "model") = Some (k, m) →
  filename image ≠ "" →
  upload_image w req now = (jsonify_error msg status, w') →
  status = 500
  ∧ w' = {| db := db w;
            fs := default (fs w)
                    (write_file (fs w)
                       (os_path_join UPLOAD_FOLDER (secure_filename (filename image)))
                       (content image)) |}.
Proof.
  intros Himg Hm Hname. unfold upload_image. rewrite Himg, Hm.
  rewrite bool_decide_eq_false_2 by done.
  destruct (_process_image_cases w image m now)
    as [[Hsave ->]|(saved & Hsave & [[msg' ->]|(c & kg & _ & _ & _ & ->)])];
    rewrite Hsave; intros [= <- <- <-]; [|done]. by destruct w.
Qed.

(** X9.  A cover that [upload_image] has served can be fetched again:
    [get_generated_cover] with the generated file name serves the same
    path. *)
Theorem uploaded_cover_can_be_fetched (w w' : World) (req : Request) (now : datetime)
    (image : FileStorage) (k : Z) (m : MobileModel) (path mimetype : string) :
  files req !! "image" = Some image →
  filter_by_first (db w) (form req !! "model") = Some (k, m) →
  upload_image w req now = (send_file path mimetype, w') →
  path = os_path_join GENERATED_COVERS_FOLDER (generated_cover_filename m now)
  ∧ get_generated_cover w' (generated_cover_filename m now) = send_file path "image/png".
Proof.
  intros Himg Hm. unfold upload_image. rewrite Himg, Hm.
  case_bool_decide; [done|].
  destruct (_process_image_cases w image m now)
    as [[_ ->]|(saved & _ & [[msg' ->]|(c & kg & _ & _ & Hkg & ->)])];
    [done | done |].
  intros [= <- <- <-]. split; [done|].
  unfold get_generated_cover, read_file. cbn [fs]. rewrite Hkg.
  cbn [mbind option_bind]. by rewrite lookup_insert_eq.
Qed.

(** ** The catalogue *)

(** X10.  [get_models] lists exactly the rows of the table, each once: an
    entry is listed if and only if the row with its id carries its fields,
    no id is listed twice, and there are as many entries as rows. *)
Theorem get_models_lists_rows (w : World) :
  (∀ d, d ∈ get_models w ↔
        ∃ r, db w !! data_id d = Some r
             ∧ data_model_name d = model_name r
             ∧ data_template_filename d = template_filename r
             ∧ data_created_at d = isoformat (created_at r))
  ∧ NoDup (data_id <$> get_models w)
  ∧ length (get_models w) = size (db w).
Proof.
  unfold get_models. split_and!.
  - intros d. rewrite list_elem_of_fmap. split.
    + intros ([i r] & -> & Hin%elem_of_map_to_list). by exists r.
    + intros (r & Hr & Hn & Ht & Hc). exists (data_id d, r). split.
      * destruct d; cbn in *; by subst.
      * by apply elem_of_map_to_list.
  - rewrite <- list_fmap_compose. apply NoDup_fst_map_to_list.
  - by rewrite length_fmap, length_map_to_list.
Qed.

Lemma add_model_ok (w : World) (req : Request) (now : datetime)
    (template_file : FileStorage) (n key : string) :
  unique_model_name (db w) →
  files req !! "template_file" = Some template_file →
  form req !! "model_name" = Some n →
  (∀ i r, db w !! i = Some r → model_name r ≠ n) →
  resolve (os_path_join COVER_TEMPLATES_FOLDER
             (secure_filename (filename template_file))) = Some key →
  add_model w req now
  = (jsonify_message ("Model " +:+ n +:+ " added successfully!") 201,
     {| db := <[next_id (db w) :=
                 {| model_name := n;
                    template_filename := secure_filename (filename template_file);
                    created_at := now |}]> (db w);
        fs := <[key := content template_file]> (fs w) |}).
Proof.
  intros Hu Hf Hn Hnew Hkey. unfold add_model. rewrite Hf, Hn.
  rewrite (proj2 (filter_by_first_None (db w) n)) by done.
  unfold write_file. rewrite Hkey. cbn [mbind option_bind].
  rewrite commit_unique; [done|].
  apply unique_insert; [done|]. intros i r Hir _. by apply (Hnew i r).
Qed.

(** X11.  [add_model] with both fields, a name that no row carries, and a
    template path that can be written, answers 201, stores the template
    under [cover_templates], and adds one row under a key that was free,
    stamped with the current time. *)
Theorem add_model_success (w : World) (req : Request) (now : datetime)
    (template_file : FileStorage) (n key : string) :
  unique_model_name (db w) →
  files req !! "template_file" = Some template_file →
  form req !! "model_name" = Some n →
  (∀ i r, db w !! i = Some r → model_name r ≠ n) →
  resolve (os_path_join COVER_TEMPLATES_FOLDER
             (secure_filename (filename template_file))) = Some key →
  db w !! next_id (db w) = None
  ∧ add_model w req now
    = (jsonify_message ("Model " +:+ n +:+ " added successfully!") 201,
       {| db := <[next_id (db w) :=
                   {| model_name := n;
                      template_filename := secure_filename (filename template_file);
                      created_at := now |}]> (db w);
          fs := <[key := content template_file]> (fs w) |}).
Proof.
  intros Hu Hf Hn Hnew Hkey. split; [apply next_id_fresh | by apply add_model_ok].
Qed.

(** X12.  After such a successful [add_model], [get_models] lists the new
    model with its name, stored template name and creation time, and still
    lists every model it listed before. *)
Theorem add_model_then_get_models (w : World) (req : Request) (now : datetime)
    (template_file : FileStorage) (n key : string) :
  unique_model_name (db w) →
  files req !! "template_file" = Some template_file →
  form req !! "model_name" = Some n →
  (∀ i r, db w !! i = Some r → model_name r ≠ n) →
  resolve (os_path_join COVER_TEMPLATES_FOLDER
             (secure_filename (filename template_file))) = Some key →
  {| data_id := next_id (db w); data_model_name := n;
     data_template_filename := secure_filename (filename template_file);
     data_created_at := isoformat now |} ∈ get_models (add_model w req now).2
  ∧ ∀ d, d ∈ get_models w → d ∈ get_models (add_model w req now).2.
Proof.
  intros Hu Hf Hn Hnew Hkey.
  rewrite (add_model_ok w req now template_file n key) by done.
  unfold get_models. cbn [db snd]. split.
  - apply list_elem_of_fmap.
    exists (next_id (db w),
            {| model_name := n;
               template_filename := secure_filename (filename template_file);
               created_at := now |}).
    split; [done|]. apply elem_of_map_to_list. apply lookup_insert_eq.
  - intros d ([i r] & -> & Hin%elem_of_map_to_list)%list_elem_of_fmap.
    apply list_elem_of_fmap. exists (i, r). split; [done|].
    apply elem_of_map_to_list. rewrite lookup_insert_ne; [done|].
    intros <-. by rewrite next_id_fresh in Hin.
Qed.

(** X13.  A model created by a successful [add_model] is usable at once:
    when the upload can be saved and the cover path can be written, an
    upload naming it is never answered with an unknown model or a missing
    template; it either serves the cover or reports a processing error. *)
Theorem add_model_then_upload (w : World) (req req' : Request) (now now' : datetime)
    (template_file image : FileStorage) (n key key_upload key_cover : string) :
  unique_model_name (db w) →
  files req !! "template_file" = Some template_file →
  form req !! "model_name" = Some n →
  (∀ i r, db w !! i = Some r → model_name r ≠ n) →
  resolve (os_path_join COVER_TEMPLATES_FOLDER
             (secure_filename (filename template_file))) = Some key →
  files req' !! "image" = Some image →
  form req' !! "model" = Some n →
  filename image ≠ "" →
  resolve (os_path_join UPLOAD_FOLDER (secure_filename (filename image)))
    = Some key_upload →
  resolve (os_path_join GENERATED_COVERS_FOLDER
             (n +:+ "_" +:+ strftime_YmdHMS now' +:+ ".png")) = Some key_cover →
  ∃ w',
    upload_image (add_model w req now).2 req' now'
    = (send_file (os_path_join GENERATED_COVERS_FOLDER
                    (n +:+ "_" +:+ strftime_YmdHMS now' +:+ ".png")) "image/png", w')
    ∨ ∃ e, upload_image (add_model w req now).2 req' now'
           = (jsonify_error ("Error processing images: " +:+ str e) 500, w').
Proof.
  intros Hu Hf Hn Hnew Hkey Himg Hmodel Hname Hup Hcover.
  rewrite (add_model_ok w req now template_file n key) by done.
  set (row := {| model_name := n;
                 template_filename := secure_filename (filename template_file);
                 created_at := now |}).
  set (t := <[next_id (db w) := row]> (db w)).
  assert (unique_model_name t) as Hut.
  { apply unique_insert; [done|]. intros i r Hir _. by apply (Hnew i r). }
  assert (t !! next_id (db w) = Some row) as Hrow by apply lookup_insert_eq.
  assert (filter_by_first t (Some n) = Some (next_id (db w), row)) as Hfind.
  { destruct (filter_by_first_is_Some t n _ row Hrow eq_refl) as [[k r] Hk].
    rewrite Hk. apply filter_by_first_Some in Hk as [Hk Hkn].
    assert (k = next_id (db w)) as -> by (by apply (Hut _ _ r row)).
    congruence. }
  unfold upload_image. cbn [db fs snd]. rewrite Himg, Hmodel. fold t. rewrite Hfind.
  rewrite bool_decide_eq_false_2 by done.
  set (saved := <[key_upload := content image]> (<[key := content template_file]> (fs w))).
  rewrite (_process_image_run _ image row now' saved key_cover).
  - cbn [db fs template_filename model_name row].
    destruct (_combine_images _ _ _) as [e|out]; eexists.
    + right. by exists e.
    + left. done.
  - unfold write_file. cbn [fs]. by rewrite Hup.
  - unfold os_path_exists, read_file. cbn [template_filename row]. rewrite Hkey.
    cbn [mbind option_bind].
    apply orb_true_iff. right. apply bool_decide_eq_true.
    unfold saved. rewrite lookup_insert. case_decide; [by eexists|].
    rewrite lookup_insert_eq. by eexists.
  - done.
Qed.

(** X14.  Adding the same name again is refused: after a successful
    [add_model], any further [add_model] for that name answers 400 and
    changes nothing. *)
Theorem add_model_twice (w : World) (req req' : Request) (now now' : datetime)
    (template_file : FileStorage) (n key : string) :
  unique_model_name (db w) →
  files req !! "template_file" = Some template_file →
  form req !! "model_name" = Some n →
  (∀ i r, db w !! i = Some r → model_name r ≠ n) →
  resolve (os_path_join COVER_TEMPLATES_FOLDER
             (secure_filename (filename template_file))) = Some key →
  form req' !! "model_name" = Some n →
  ∃ msg, add_model (add_model w req now).2 req' now'
         = (jsonify_error msg 400, (add_model w req now).2).
Proof.
  intros Hu Hf Hn Hnew Hkey Hn'.
  rewrite (add_model_ok w req now template_file n key) by done. cbn [snd].
  set (row := {| model_name := n;
                 template_filename := secure_filename (filename template_file);
                 created_at := now |}).
  unfold add_model. cbn [db fs]. rewrite Hn'.
  destruct (files req' !! "template_file"); [|by eexists].
  destruct (filter_by_first_is_Some (<[next_id (db w) := row]> (db w)) n
              (next_id (db w)) row) as [x ->];
    [apply lookup_insert_eq | done | by eexists].
Qed.

Lemma delete_model_ok (w : World) (model_id : Z) (model : MobileModel) :
  unique_model_name (db w) → db w !! model_id = Some model →
  delete_model w model_id
  = (jsonify_message ("Model " +:+ model_name model +:+ " deleted successfully!") 200,
     {| db := delete model_id (db w); fs := fs w |}).
Proof.
  intros Hu Hm. unfold delete_model, query_get. rewrite Hm.
  by rewrite commit_unique by by apply unique_delete.
Qed.

(** X15.  Deleting the model that a successful [add_model] has just
    created restores the table; the template file that was uploaded with it
    stays on disk. *)
Theorem add_model_then_delete (w : World) (req : Request) (now : datetime)
    (template_file : FileStorage) (n key : string) :
  unique_model_name (db w) →
  files req !! "template_file" = Some template_file →
  form req !! "model_name" = Some n →
  (∀ i r, db w !! i = Some r → model_name r ≠ n) →
  resolve (os_path_join COVER_TEMPLATES_FOLDER
             (secure_filename (filename template_file))) = Some key →
  delete_model (add_model w req now).2 (next_id (db w))
  = (jsonify_message ("Model " +:+ n +:+ " deleted successfully!") 200,
     {| db := db w; fs := <[key := content template_file]> (fs w) |}).
Proof.
  intros Hu Hf Hn Hnew Hkey.
  rewrite (add_model_ok w req now template_file n key) by done. cbn [snd].
  set (row := {| model_name := n;
                 template_filename := secure_filename (filename template_file);
                 created_at := now |}).
  rewrite (delete_model_ok _ (next_id (db w)) row); cbn [db fs].
  - rewrite delete_insert_eq, delete_id by apply next_id_fresh. done.
  - apply unique_insert; [done|]. intros i r Hir _. by apply (Hnew i r).
  - apply lookup_insert_eq.
Qed.

(** X16.  [delete_model] touches nothing but the row it names: the files
    are unchanged (the template of a deleted model stays on disk) and
    every other row is unchanged. *)
Theorem delete_model_frame (w : World) (model_id : Z) :
  fs (delete_model w model_id).2 = fs w
  ∧ ∀ j, j ≠ model_id → db (delete_model w model_id).2 !! j = db w !! j.
Proof.
  unfold delete_model, query_get, commit.
  destruct (db w !! model_id) as [model|]; [|done].
  case_bool_decide; [|done]. split; [done|].
  intros j Hj. cbn. by rewrite lookup_delete_ne.
Qed.


(** X18.  After a model is deleted, an upload naming it is refused with
    400 and stores nothing. *)
Theorem delete_model_then_upload (w : World) (model_id : Z) (model : MobileModel)
    (req : Request) (now : datetime) :
  unique_model_name (db w) → db w !! model_id = Some model →
  form req !! "model" = Some (model_name model) →
  ∃ msg, upload_image (delete_model w model_id).2 req now
         = (jsonify_error msg 400, (delete_model w model_id).2).
Proof.
  intros Hu Hm Hn. rewrite (delete_model_ok w model_id model) by done. cbn [snd].
  unfold upload_image. cbn [db]. rewrite Hn.
  destruct (files req !! "image") as [image|]; [|by eexists].
  rewrite (proj2 (filter_by_first_None _ (model_name model))); [by eexists|].
  intros i r [Hne Hir]%lookup_delete_Some Hname.
  apply Hne. by apply (Hu model_id i model r).
Qed.

Lemma update_model_ok (w : World) (req : Request) (model_id : Z) (model : MobileModel) :
  unique_model_name (db w) → db w !! model_id = Some model →
  (∀ n j r, truthy (json req !! "model_name") = Some n →
            db w !! j = Some r → j ≠ model_id → model_name r ≠ n) →
  let model_name' := default (model_name model) (truthy (json req !! "model_name")) in
  let template_filename' :=
    default (template_filename model) (truthy (json req !! "template_filename")) in
  update_model w req model_id
  = (jsonify_message ("Model " +:+ model_name' +:+ " updated successfully!") 200,
     {| db := <[model_id := {| model_name := model_name';
                               template_filename := template_filename';
                               created_at := created_at model |}]> (db w);
        fs := fs w |}).
Proof.
  intros Hu Hm Hfree. cbv zeta. unfold update_model, query_get. rewrite Hm.
  assert (unique_model_name
    (<[model_id := {| model_name := default (model_name model) (truthy (json req !! "model_name"));
                      template_filename :=
                        default (template_filename model)
                          (truthy (json req !! "template_filename"));
                      created_at := created_at model |}]> (db w))) as Hu'.
  { apply unique_insert; [done|]. intros j r Hj Hne. cbn.
    destruct (truthy (json req !! "model_name")) as [n|] eqn:Hn; cbn.
    - by apply (Hfree n j r).
    - intros Hname. apply Hne. by apply (Hu j model_id r model). }
  destruct (truthy (json req !! "model_name")) as [n|] eqn:Hn; cbn in Hu'.
  - destruct (filter_by_first (db w) (Some n)) as [[k r]|] eqn:Hk.
    + apply filter_by_first_Some in Hk as [Hk Hkn].
      rewrite bool_decide_eq_false_2 by (intros Hne; by apply (Hfree n k r)).
      destruct (truthy (json req !! "template_filename")) as [f|]; cbn in Hu' |- *;
        by rewrite commit_unique.
    + destruct (truthy (json req !! "template_filename")) as [f|]; cbn in Hu' |- *;
        by rewrite commit_unique.
  - destruct (truthy (json req !! "template_filename")) as [f|]; cbn in Hu' |- *;
      [|destruct model; cbn in Hu' |- *]; by rewrite commit_unique.
Qed.

(** X19.  [update_model] on an existing row, with a new name that no other
    row carries (its own current name is allowed), answers 200 and
    replaces exactly the fields that are present and not empty; the
    creation time is kept. *)
Theorem update_model_success (w : World) (req : Request) (model_id : Z)
    (model : MobileModel) :
  unique_model_name (db w) → db w !! model_id = Some model →
  (∀ n j r, truthy (json req !! "model_name") = Some n →
            db w !! j = Some r → j ≠ model_id → model_name r ≠ n) →
  let model_name' := default (model_name model) (truthy (json req !! "model_name")) in
  let template_filename' :=
    default (template_filename model) (truthy (json req !! "template_filename")) in
  update_model w req model_id
  = (jsonify_message ("Model " +:+ model_name' +:+ " updated successfully!") 200,
     {| db := <[model_id := {| model_name := model_name';
                               template_filename := template_filename';
                               created_at := created_at model |}]> (db w);
        fs := fs w |}).
Proof. apply update_model_ok. Qed.

(** X20.  [update_model] touches nothing but the row it names: the files
    and every other row are unchanged, no row is created or removed, and
    the creation time of the row is never changed. *)
Theorem update_model_frame (w : World) (req : Request) (model_id : Z) :
  fs (update_model w req model_id).2 = fs w
  ∧ (∀ j, j ≠ model_id → db (update_model w req model_id).2 !! j = db w !! j)
  ∧ (∀ model, db w !! model_id = Some model →
       ∃ model', db (update_model w req model_id).2 !! model_id = Some model'
                 ∧ created_at model' = created_at model)
  ∧ (db w !! model_id = None → db (update_model w req model_id).2 !! model_id = None).
Proof.
  unfold update_model, query_get.
  destruct (db w !! model_id) as [model|] eqn:Hm; [|by split_and!; [| |intros ?|]].
  set (renamed := match truthy (json req !! "model_name") with
                  | Some n => _ | None => Some model end).
  assert (∀ r, renamed = Some r → created_at r = created_at model) as Hcreated.
  { intros r. unfold renamed. destruct (truthy (json req !! "model_name")) as [n|].
    - destruct (filter_by_first (db w) (Some n)) as [[k x]|].
      + case_bool_decide; [done|]. by intros [= <-].
      + by intros [= <-].
    - by intros [= <-]. }
  destruct renamed as [r|]; [|split_and!; [done | done | intros ? [= <-]; by eexists | done]].
  specialize (Hcreated r eq_refl).
  set (r' := match truthy (json req !! "template_filename") with
             | Some f => _ | None => r end).
  assert (created_at r' = created_at model) as Hcreated'
    by (unfold r'; by destruct (truthy (json req !! "template_filename"))).
  unfold commit. case_bool_decide; cbn [fst snd db fs].
  - split_and!; [done | | | done].
    + intros j Hj. by rewrite lookup_insert_ne.
    + intros ? [= <-]. exists r'. by rewrite lookup_insert_eq.
  - split_and!; [done | done | | done]. intros ? [= <-]. by eexists.
Qed.

(** X21.  An update that carries no field, or only empty strings, answers
    200 and changes nothing. *)
Theorem update_model_noop (w : World) (req : Request) (model_id : Z)
    (model : MobileModel) :
  unique_model_name (db w) → db w !! model_id = Some model →
  truthy (json req !! "model_name") = None →
  truthy (json req !! "template_filename") = None →
  update_model w req model_id
  = (jsonify_message ("Model " +:+ model_name model +:+ " updated successfully!") 200, w).
Proof.
  intros Hu Hm Hn Hf.
  rewrite (update_model_ok w req model_id model Hu Hm) by (intros ? ? ?; by rewrite Hn).
  rewrite Hn, Hf. cbn [default]. f_equal.
  destruct w as [t files]. cbn in *. f_equal.
  apply insert_id. by destruct model.
Qed.

(** X22.  [update_model] does not look for the template file: after the
    template name of a model is changed to a path where nothing exists, an
    upload for that model, once saved, is answered 500, template not found,
    and the uploaded photo stays stored. *)
Theorem update_template_then_upload (w : World) (req req' : Request) (model_id : Z)
    (model : MobileModel) (f : string) (image : FileStorage) (now : datetime)
    (saved : gmap string (list Byte.byte)) :
  unique_model_name (db w) → db w !! model_id = Some model →
  truthy (json req !! "model_name") = None →
  truthy (json req !! "template_filename") = Some f →
  files req' !! "image" = Some image →
  form req' !! "model" = Some (model_name model) →
  filename image ≠ "" →
  write_file (fs w) (os_path_join UPLOAD_FOLDER (secure_filename (filename image)))
    (content image) = Some saved →
  os_path_exists saved (os_path_join COVER_TEMPLATES_FOLDER f) = false →
  upload_image (update_model w req model_id).2 req' now
  = (jsonify_error "Mobile cover template not found!" 500,
     {| db := db (update_model w req model_id).2; fs := saved |}).
Proof.
  intros Hu Hm Hn Hf Himg Hmodel Hname Hsave Hmissing.
  rewrite (update_model_ok w req model_id model Hu Hm) by (intros ? ? ?; by rewrite Hn).
  rewrite Hn, Hf. cbn [default from_option snd]. unfold id.
  set (row := {| model_name := model_name model; template_filename := f;
                 created_at := created_at model |}).
  set (t := <[model_id := row]> (db w)).
  assert (unique_model_name t) as Hut.
  { apply unique_insert; [done|]. intros j r Hj Hne Hnm. apply Hne.
    by apply (Hu j model_id r model). }
  assert (t !! model_id = Some row) as Hrow by apply lookup_insert_eq.
  assert (filter_by_first t (Some (model_name model)) = Some (model_id, row)) as Hfind.
  { destruct (filter_by_first_is_Some t (model_name model) _ row Hrow eq_refl)
      as [[k r] Hk].
    rewrite Hk. apply filter_by_first_Some in Hk as [Hk Hkn].
    assert (k = model_id) as -> by (by apply (Hut _ _ r row)).
    congruence. }
  unfold upload_image. cbn [db fs]. rewrite Himg, Hmodel. fold t. rewrite Hfind.
  rewrite bool_decide_eq_false_2 by done.
  unfold _process_image. cbn [db fs template_filename row].
  by rewrite Hsave, Hmissing.
Qed.
End HandlersMore.

(** ** Instances of the further properties *)
Lemma world0_rows (i : Z) (r : MobileModel) :
  db world0 !! i = Some r → (i = 1 ∧ r = iphone) ∨ (i = 2 ∧ r = pixel).
Proof.
  unfold world0. cbn [db]. rewrite lookup_insert. case_decide.
  - intros [= <-]. left. done.
  - rewrite lookup_insert. case_decide; [|by rewrite lookup_empty].
    intros [= <-]. right. done.
Qed.

Lemma world0_no_galaxy (i : Z) (r : MobileModel) :
  db world0 !! i = Some r → model_name r ≠ "galaxy".
Proof. by intros [[_ ->]|[_ ->]]%world0_rows. Qed.

Lemma combine_output_valid_witness :
  ∃ out,
    combine_arrays cv2.BGR2HSV_8u cv2.nearest (Some photo_white) (Some template_half)
      = inr out
    ∧ valid_image out = true.
Proof.
  apply (combine_output_valid cv2.BGR2HSV_8u cv2.nearest template_half photo_white);
    reflexivity.
Defined.

Lemma combine_idempotent_witness :
  combine_arrays cv2.BGR2HSV_8u cv2.nearest (Some photo_white)
    (Some [[white; blue]; [white; blue]])
  = inr [[white; blue]; [white; blue]].
Proof.
  apply (combine_idempotent cv2.BGR2HSV_8u cv2.nearest template_half photo_white);
    [reflexivity | reflexivity | vm_compute; reflexivity].
Defined.

Lemma combine_no_green_witness :
  combine_arrays cv2.BGR2HSV_8u cv2.nearest (Some photo_white) (Some template_blue)
  = inr template_blue.
Proof.
  apply (combine_no_green cv2.BGR2HSV_8u cv2.nearest template_blue photo_white);
    [reflexivity | reflexivity |].
  intros i j c H.
  destruct i as [|i]; [|destruct i; discriminate H].
  destruct j as [|[|j]]; vm_compute in H; [| |destruct j; discriminate H];
    injection H as <-; unfold in_chroma_range; lia.
Defined.

Lemma combine_all_green_witness :
  combine_arrays cv2.BGR2HSV_8u cv2.nearest (Some photo_white) (Some template_green)
  = cv2.resize cv2.nearest (Some photo_white) (cols template_green, rows template_green).
Proof.
  apply (combine_all_green cv2.BGR2HSV_8u cv2.nearest template_green photo_white);
    [reflexivity | reflexivity |].
  intros i j c H.
  destruct i as [|[|i]]; [| |destruct i; discriminate H];
    (destruct j as [|j]; [|destruct j; discriminate H]);
    vm_compute in H; injection H as <-; unfold in_chroma_range; lia.
Defined.

Lemma upload_image_frame_witness :
  fs (toy_upload_image world0 (upload_request "iphone" [Byte.x03]) noon).2
    !! "cover_templates/iphone.png"
  = fs world0 !! "cover_templates/iphone.png".
Proof.
  apply (upload_image_frame cv2.BGR2HSV_8u cv2.nearest toy_decode toy_encode
           toy_secure_filename toy_str toy_resolve toy_isdir world0
           (upload_request "iphone" [Byte.x03])
           noon (me_png [Byte.x03]) 1 iphone "cover_templates/iphone.png");
    [reflexivity | vm_compute; reflexivity
    | vm_compute; discriminate | vm_compute; discriminate].
Defined.

Lemma upload_image_success_witness :
  ∃ out,
    combine_arrays cv2.BGR2HSV_8u cv2.nearest (Some photo_white) (Some template_half)
      = inr out
    ∧ toy_upload_image world0 (upload_request "iphone" [Byte.x03]) noon
      = (send_file "generated_covers/iphone_20240309120007.png" "image/png",
         {| db := db world0;
            fs := <["generated_covers/iphone_20240309120007.png" := toy_encode out]>
                    (<["uploads/me.png" := [Byte.x03]]> (fs world0)) |}).
Proof.
  apply (upload_image_success cv2.BGR2HSV_8u cv2.nearest toy_decode toy_encode
           toy_secure_filename toy_str toy_resolve toy_isdir world0
           (upload_request "iphone" [Byte.x03])
           noon (me_png [Byte.x03]) 1 iphone template_half photo_white
           (<["uploads/me.png" := [Byte.x03]]> (fs world0))
           "generated_covers/iphone_20240309120007.png");
    [reflexivity | vm_compute; reflexivity | discriminate | reflexivity
    | vm_compute; reflexivity | vm_compute; reflexivity | reflexivity | reflexivity
    | reflexivity].
Defined.

Lemma upload_failure_writes_no_cover_witness :
  500 = 500
  ∧ (toy_upload_image world0 (upload_request "iphone" []) noon).2
    = {| db := db world0;
         fs := default (fs world0)
                 (write_file toy_resolve (fs world0)
                    (os_path_join UPLOAD_FOLDER (toy_secure_filename (filename (me_png []))))
                    (content (me_png []))) |}.
Proof.
  apply (upload_failure_writes_no_cover cv2.BGR2HSV_8u cv2.nearest toy_decode toy_encode
           toy_secure_filename toy_str toy_resolve toy_isdir world0
           (toy_upload_image world0 (upload_request "iphone" []) noon).2
           (upload_request "iphone" []) noon (me_png []) 1 iphone
           "Error processing images: cv2.error: resize" 500);
    [reflexivity | vm_compute; reflexivity | discriminate | vm_compute; reflexivity].
Defined.

Lemma uploaded_cover_can_be_fetched_witness :
  "generated_covers/iphone_20240309120007.png"
  = os_path_join GENERATED_COVERS_FOLDER (generated_cover_filename iphone noon)
  ∧ get_generated_cover toy_resolve toy_str_send_file_error
      (toy_upload_image world0 (upload_request "iphone" [Byte.x03]) noon).2
      (generated_cover_filename iphone noon)
    = send_file "generated_covers/iphone_20240309120007.png" "image/png".
Proof.
  apply (uploaded_cover_can_be_fetched cv2.BGR2HSV_8u cv2.nearest toy_decode toy_encode
           toy_secure_filename toy_str toy_resolve toy_isdir toy_str_send_file_error
           world0
           (toy_upload_image world0 (upload_request "iphone" [Byte.x03]) noon).2
           (upload_request "iphone" [Byte.x03]) noon (me_png [Byte.x03]) 1 iphone
           "generated_covers/iphone_20240309120007.png" "image/png");
    [reflexivity | vm_compute; reflexivity | vm_compute; reflexivity].
Defined.

Lemma add_model_success_witness :
  db world0 !! next_id (db world0) = None
  ∧ toy_add_model world0 (add_request "galaxy" [Byte.x01]) noon
    = (jsonify_message ("Model " +:+ "galaxy" +:+ " added successfully!") 201,
       {| db := <[next_id (db world0) :=
                   {| model_name := "galaxy";
                      template_filename := toy_secure_filename (filename galaxy_png);
                      created_at := noon |}]> (db world0);
          fs := <["cover_templates/galaxy.png" := content galaxy_png]> (fs world0) |}).
Proof.
  apply (add_model_success toy_secure_filename toy_str toy_resolve world0
           (add_request "galaxy" [Byte.x01]) noon galaxy_png "galaxy"
           "cover_templates/galaxy.png");
    [apply world0_unique | reflexivity | reflexivity | apply world0_no_galaxy
    | reflexivity].
Defined.

Lemma add_model_then_get_models_witness :
  {| data_id := next_id (db world0); data_model_name := "galaxy";
     data_template_filename := toy_secure_filename (filename galaxy_png);
     data_created_at := isoformat noon |}
    ∈ get_models (toy_add_model world0 (add_request "galaxy" [Byte.x01]) noon).2
  ∧ ∀ d, d ∈ get_models world0 →
         d ∈ get_models (toy_add_model world0 (add_request "galaxy" [Byte.x01]) noon).2.
Proof.
  apply (add_model_then_get_models toy_secure_filename toy_str toy_resolve world0
           (add_request "galaxy" [Byte.x01]) noon galaxy_png "galaxy"
           "cover_templates/galaxy.png");
    [apply world0_unique | reflexivity | reflexivity | apply world0_no_galaxy
    | reflexivity].
Defined.

Lemma add_model_then_upload_witness :
  ∃ w',
    toy_upload_image (toy_add_model world0 (add_request "galaxy" [Byte.x01]) noon).2
      (upload_request "galaxy" [Byte.x03]) noon_next
    = (send_file (os_path_join GENERATED_COVERS_FOLDER
                    ("galaxy" +:+ "_" +:+ strftime_YmdHMS noon_next +:+ ".png"))
         "image/png", w')
    ∨ ∃ e,
        toy_upload_image (toy_add_model world0 (add_request "galaxy" [Byte.x01]) noon).2
          (upload_request "galaxy" [Byte.x03]) noon_next
        = (jsonify_error ("Error processing images: " +:+ toy_str e) 500, w').
Proof.
  apply (add_model_then_upload cv2.BGR2HSV_8u cv2.nearest toy_decode toy_encode
           toy_secure_filename toy_str toy_resolve toy_isdir world0
           (add_request "galaxy" [Byte.x01])
           (upload_request "galaxy" [Byte.x03]) noon noon_next galaxy_png
           (me_png [Byte.x03]) "galaxy" "cover_templates/galaxy.png"
           "uploads/me.png" "generated_covers/galaxy_20240309120008.png");
    [apply world0_unique | reflexivity | reflexivity | apply world0_no_galaxy
    | reflexivity | reflexivity | reflexivity | discriminate
    | reflexivity | reflexivity].
Defined.

Lemma add_model_twice_witness :
  ∃ msg,
    toy_add_model (toy_add_model world0 (add_request "galaxy" [Byte.x01]) noon).2
      (add_request "galaxy" [Byte.x02]) noon_next
    = (jsonify_error msg 400,
       (toy_add_model world0 (add_request "galaxy" [Byte.x01]) noon).2).
Proof.
  apply (add_model_twice toy_secure_filename toy_str toy_resolve world0
           (add_request "galaxy" [Byte.x01]) (add_request "galaxy" [Byte.x02])
           noon noon_next galaxy_png "galaxy" "cover_templates/galaxy.png");
    [apply world0_unique | reflexivity | reflexivity | apply world0_no_galaxy
    | reflexivity | reflexivity].
Defined.

Lemma add_model_then_delete_witness :
  toy_delete_model (toy_add_model world0 (add_request "galaxy" [Byte.x01]) noon).2
    (next_id (db world0))
  = (jsonify_message ("Model " +:+ "galaxy" +:+ " deleted successfully!") 200,
     {| db := db world0;
        fs := <["cover_templates/galaxy.png" := content galaxy_png]> (fs world0) |}).
Proof.
  apply (add_model_then_delete toy_secure_filename toy_str toy_resolve world0
           (add_request "galaxy" [Byte.x01]) noon galaxy_png "galaxy"
           "cover_templates/galaxy.png");
    [apply world0_unique | reflexivity | reflexivity | apply world0_no_galaxy
    | reflexivity].
Defined.


Lemma delete_model_then_upload_witness :
  ∃ msg,
    toy_upload_image (toy_delete_model world0 1).2
      (upload_request "iphone" [Byte.x03]) noon
    = (jsonify_error msg 400, (toy_delete_model world0 1).2).
Proof.
  apply (delete_model_then_upload cv2.BGR2HSV_8u cv2.nearest toy_decode toy_encode
           toy_secure_filename toy_str toy_resolve toy_isdir world0 1 iphone
           (upload_request "iphone" [Byte.x03]) noon);
    [apply world0_unique | reflexivity | reflexivity].
Defined.

Lemma update_model_success_witness :
  toy_update_model world0 (rename_request "iphone") 1
  = (jsonify_message ("Model " +:+ "iphone" +:+ " updated successfully!") 200,
     {| db := <[1 := {| model_name := "iphone";
                        template_filename := "iphone.png";
                        created_at := noon |}]> (db world0);
        fs := fs world0 |}).
Proof.
  apply (update_model_success toy_str world0 (rename_request "iphone") 1 iphone);
    [apply world0_unique | reflexivity |].
  intros n j r [= <-] [[-> _]|[_ ->]]%world0_rows Hj; done.
Defined.

Lemma update_model_noop_witness :
  toy_update_model world0 (rename_request "") 2
  = (jsonify_message ("Model " +:+ "pixel" +:+ " updated successfully!") 200, world0).
Proof.
  apply (update_model_noop toy_str world0 (rename_request "") 2 pixel);
    [apply world0_unique | reflexivity | reflexivity | reflexivity].
Defined.

Lemma update_template_then_upload_witness :
  toy_upload_image (toy_update_model world0 (retitle_request "gone.png") 1).2
    (upload_request "iphone" [Byte.x03]) noon
  = (jsonify_error "Mobile cover template not found!" 500,
     {| db := db (toy_update_model world0 (retitle_request "gone.png") 1).2;
        fs := <["uploads/me.png" := [Byte.x03]]> (fs world0) |}).
Proof.
  apply (update_template_then_upload cv2.BGR2HSV_8u cv2.nearest toy_decode toy_encode
           toy_secure_filename toy_str toy_resolve toy_isdir world0
           (retitle_request "gone.png")
           (upload_request "iphone" [Byte.x03]) 1 iphone "gone.png"
           (me_png [Byte.x03]) noon (<["uploads/me.png" := [Byte.x03]]> (fs world0)));
    [apply world0_unique | reflexivity | reflexivity | reflexivity | reflexivity
    | reflexivity | discriminate | reflexivity | vm_compute; reflexivity].
Defined.
